(** * build-tokenlist.js: a shallow embedding and its specification

    The script resolves a chain key in [CHAIN_CONFIG], fetches the coin list of
    the chain's CoinGecko platform, keeps the coins that have a contract address
    on that platform and writes a token list file.

    The embedding follows the script function by function.  JavaScript values
    are a small inductive type, property reads walk the prototype chain of the
    receiver, exceptions are a result type, and the effects of the script
    (standard streams, the file system, the exit status) are an explicit
    process state.  [JSON.stringify] and [JSON.parse] are modelled down to the
    characters of the text, so that what is written to the file can be read
    back.

    The file has three parts: the program, the notions of the specification,
    and the properties. *)

From stdpp Require Import base strings list gmap.
From Stdlib Require Import ZArith Ascii String.
From Stdlib Require DecimalString DecimalZ DecimalFacts DecimalPos DecimalN.

Open Scope string_scope.
Open Scope list_scope.
Open Scope Z_scope.

Set Warnings "-register-all".

(** * The program *)

(** ** Results of evaluation *)

Inductive error :=
| TypeError (msg : string)
| SyntaxError (msg : string)
| SystemError (msg : string).

(** [NotModelled] marks an operation of the JavaScript runtime that lies
    outside the fragment described here (for instance reading [length] from a
    built-in function).  No statement below relies on it: the theorems show
    that the script stays inside the fragment on the inputs they speak about. *)
Inductive result (A : Type) :=
| Ok (a : A)
| Throw (e : error)
| NotModelled.

Arguments Ok {A} a.
Arguments Throw {A} e.
Arguments NotModelled {A}.

Definition bind {A B} (m : result A) (k : A -> result B) : result B :=
  match m with
  | Ok a => k a
  | Throw e => Throw e
  | NotModelled => NotModelled
  end.

Notation "'let*' x ':=' m 'in' k" := (bind m (fun x => k))
  (at level 10, x name, m at level 100, k at level 200).

(** ** Values *)

(** The classes of receivers whose prototype objects matter to the script. *)
Inductive class := CObject | CArray | CString | CNumber | CBoolean.

(** Built-in objects of the runtime: the prototype objects, and the built-in
    functions, known by their [name]. *)
Inductive native :=
| Proto (c : class)
| NativeFn (fname : string).

(** Numbers are the integers: [VNum n] stands for the number [n] of the
    runtime when [n] is a safe integer (at most 2^53 - 1 in magnitude); the
    fractions, the infinities and the negative zero have no counterpart
    here.  Strings are Rocq strings, exact for ASCII text.  An object is the
    list of its own enumerable properties in enumeration order; a read finds
    the first binding of a key. *)
Inductive value :=
| VUndef
| VNull
| VBool (b : bool)
| VNum (n : Z)
| VStr (s : string)
| VArr (elems : list value)
| VObj (props : list (string * value))
| VNative (b : native).

(** ToBoolean. *)
Definition truthy (v : value) : bool :=
  match v with
  | VUndef | VNull => false
  | VBool b => b
  | VNum n => negb (n =? 0)
  | VStr s => negb (String.eqb s "")
  | VArr _ | VObj _ | VNative _ => true
  end.

Definition nullish (v : value) : bool :=
  match v with
  | VUndef | VNull => true
  | _ => false
  end.

(** Number::toString in decimal notation, as the runtime prints the
    integers below 10^21 in magnitude, the safe integers among them. *)
Definition number_to_string (n : Z) : string :=
  DecimalString.NilZero.string_of_int (Z.to_int n).

(** ** Property reads *)

(** Own property of an object literal or of a parsed JSON object. *)
Fixpoint own (k : string) (props : list (string * value)) : option value :=
  match props with
  | [] => None
  | (k', v) :: rest => if String.eqb k k' then Some v else own k rest
  end.

Definition mem (k : string) (ks : list string) : bool :=
  existsb (String.eqb k) ks.

(** String-keyed properties of the standard prototype objects. *)
Definition object_prototype_names : list string :=
  [ "constructor"; "__defineGetter__"; "__defineSetter__"; "hasOwnProperty";
    "__lookupGetter__"; "__lookupSetter__"; "isPrototypeOf";
    "propertyIsEnumerable"; "toString"; "valueOf"; "__proto__";
    "toLocaleString" ].

Definition array_prototype_names : list string :=
  [ "constructor"; "at"; "concat"; "copyWithin"; "fill"; "find"; "findIndex";
    "findLast"; "findLastIndex"; "lastIndexOf"; "pop"; "push"; "reverse";
    "shift"; "unshift"; "slice"; "sort"; "splice"; "includes"; "indexOf";
    "join"; "keys"; "entries"; "values"; "forEach"; "filter"; "flat";
    "flatMap"; "map"; "every"; "some"; "reduce"; "reduceRight";
    "toLocaleString"; "toString"; "toReversed"; "toSorted"; "toSpliced";
    "with" ].

Definition string_prototype_names : list string :=
  [ "constructor"; "anchor"; "at"; "big"; "blink"; "bold"; "charAt";
    "charCodeAt"; "codePointAt"; "concat"; "endsWith"; "fontcolor";
    "fontsize"; "fixed"; "includes"; "indexOf"; "isWellFormed"; "italics";
    "lastIndexOf"; "link"; "localeCompare"; "match"; "matchAll"; "normalize";
    "padEnd"; "padStart"; "repeat"; "replace"; "replaceAll"; "search";
    "slice"; "small"; "split"; "strike"; "sub"; "substr"; "substring"; "sup";
    "startsWith"; "toString"; "toWellFormed"; "trim"; "trimStart";
    "trimLeft"; "trimEnd"; "trimRight"; "toLocaleLowerCase";
    "toLocaleUpperCase"; "toLowerCase"; "toUpperCase"; "valueOf" ].

Definition number_prototype_names : list string :=
  [ "constructor"; "toExponential"; "toFixed"; "toPrecision"; "toString";
    "valueOf"; "toLocaleString" ].

Definition boolean_prototype_names : list string :=
  [ "constructor"; "toString"; "valueOf" ].

Definition prototype_names (c : class) : list string :=
  match c with
  | CObject => object_prototype_names
  | CArray => array_prototype_names
  | CString => string_prototype_names
  | CNumber => number_prototype_names
  | CBoolean => boolean_prototype_names
  end.

Definition class_name (c : class) : string :=
  match c with
  | CObject => "Object"
  | CArray => "Array"
  | CString => "String"
  | CNumber => "Number"
  | CBoolean => "Boolean"
  end.

(** The [name] of the function stored under key [k] of the prototype of [c]. *)
Definition function_name (c : class) (k : string) : string :=
  if String.eqb k "constructor" then class_name c
  else if String.eqb k "trimLeft" then "trimStart"
  else if String.eqb k "trimRight" then "trimEnd"
  else k.

(** A read that misses the own properties of a receiver of class [c] and goes
    up its prototype chain: first the prototype of [c], then
    [Object.prototype].  [__proto__] is the accessor of [Object.prototype],
    which answers the prototype of the receiver. *)
Definition inherited (c : class) (k : string) : value :=
  if String.eqb k "__proto__" then VNative (Proto c)
  else if mem k (prototype_names c) then VNative (NativeFn (function_name c k))
  else if mem k object_prototype_names then VNative (NativeFn (function_name CObject k))
  else VUndef.

(** Array indices and string positions are the canonical decimal keys. *)
Definition index_of_key (k : string) (n : nat) : option nat :=
  List.find (fun i => String.eqb (number_to_string (Z.of_nat i)) k) (seq 0 n).

Fixpoint chars (s : string) : list value :=
  match s with
  | EmptyString => []
  | String c rest => VStr (String c EmptyString) :: chars rest
  end.

(** Property names that no built-in object of the runtime defines, on itself
    or up its prototype chain. *)
Definition absent_from_natives : list string :=
  [ "chainId"; "coingeckoPlatform"; "decimals"; "platforms"; "symbol" ].

Definition indexed (elems : list value) (c : class) (k : string) : value :=
  if String.eqb k "length" then VNum (Z.of_nat (List.length elems))
  else match index_of_key k (List.length elems) with
       | Some i => nth i elems VUndef
       | None => inherited c k
       end.

(** [v[k]] and [v.k]. *)
Definition get_prop (v : value) (k : string) : result value :=
  match v with
  | VUndef =>
      Throw (TypeError ("Cannot read properties of undefined (reading '" +:+ k +:+ "')"))
  | VNull =>
      Throw (TypeError ("Cannot read properties of null (reading '" +:+ k +:+ "')"))
  | VObj props =>
      match own k props with
      | Some x => Ok x
      | None => Ok (inherited CObject k)
      end
  | VArr elems => Ok (indexed elems CArray k)
  | VStr s => Ok (indexed (chars s) CString k)
  | VNum _ => Ok (inherited CNumber k)
  | VBool _ => Ok (inherited CBoolean k)
  | VNative (Proto CObject) =>
      if String.eqb k "__proto__" then Ok VNull
      else if mem k object_prototype_names
           then Ok (VNative (NativeFn (function_name CObject k)))
           else Ok VUndef
  | VNative (Proto _) =>
      if mem k absent_from_natives then Ok VUndef else NotModelled
  | VNative (NativeFn f) =>
      if String.eqb k "name" then Ok (VStr f)
      else if mem k absent_from_natives then Ok VUndef
      else NotModelled
  end.

(** ToPropertyKey, for the keys the script computes. *)
Definition to_property_key (v : value) : result string :=
  match v with
  | VUndef => Ok "undefined"
  | VNull => Ok "null"
  | VBool true => Ok "true"
  | VBool false => Ok "false"
  | VNum n => Ok (number_to_string n)
  | VStr s => Ok s
  | VArr _ | VObj _ | VNative _ => NotModelled
  end.

(** ** String.prototype.toUpperCase (on ASCII text) *)

(** Text made of ASCII characters only. *)
Fixpoint ascii_only (s : string) : bool :=
  match s with
  | EmptyString => true
  | String c rest => (N_of_ascii c <? 128)%N && ascii_only rest
  end.

(** On ASCII text the method maps the letters a-z to A-Z and keeps the other
    characters, which is what [toUpperCase] below does.  The letters outside
    ASCII, which the method of the runtime maps as well, are not described:
    the statements that name the upper-cased text are made for ASCII text. *)
Definition upper_ascii (c : ascii) : ascii :=
  let n := nat_of_ascii c in
  if ((97 <=? n) && (n <=? 122))%nat then ascii_of_nat (n - 32) else c.

Fixpoint toUpperCase (s : string) : string :=
  match s with
  | EmptyString => EmptyString
  | String c rest => String (upper_ascii c) (toUpperCase rest)
  end.

(** A method call [recv.m()] once the method [f] has been read from [recv]. *)
Definition call_method (recv f : value) (m : string) : result value :=
  match f with
  | VNative (NativeFn fname) =>
      if String.eqb fname "toUpperCase" then
        match recv with
        | VStr s => Ok (VStr (toUpperCase s))
        | _ => NotModelled
        end
      else NotModelled
  | _ => Throw (TypeError (m +:+ " is not a function"))
  end.

(** ** The configuration table (lines 18-48) *)

Definition CHAIN_CONFIG : value :=
  VObj
    [ ("base",
        VObj [ ("chainId", VNum 8453); ("coingeckoPlatform", VStr "base");
               ("name", VStr "Base Token List"); ("decimals", VNum 18) ]);
      ("bsc",
        VObj [ ("chainId", VNum 56);
               ("coingeckoPlatform", VStr "binance-smart-chain");
               ("name", VStr "BSC Token List"); ("decimals", VNum 18) ]);
      ("ethereum",
        VObj [ ("chainId", VNum 1); ("coingeckoPlatform", VStr "ethereum");
               ("name", VStr "Ethereum Token List"); ("decimals", VNum 18) ]);
      ("polygon",
        VObj [ ("chainId", VNum 137); ("coingeckoPlatform", VStr "polygon-pos");
               ("name", VStr "Polygon Token List"); ("decimals", VNum 18) ]) ].

(** The keys the table defines. *)
Definition supported_keys : list string :=
  match CHAIN_CONFIG with
  | VObj props => map fst props
  | _ => []
  end.

(** ** transformCoinGeckoData (lines 98-121) *)

(** [for (let item of geckoData)]: arrays yield their elements, strings their
    characters; the other values of JSON data and undefined are not
    iterable. *)
Definition iterate (v : value) : result (list value) :=
  match v with
  | VArr elems => Ok elems
  | VStr s => Ok (chars s)
  | VUndef | VNull | VBool _ | VNum _ | VObj _ =>
      Throw (TypeError "geckoData is not iterable")
  | VNative _ => NotModelled
  end.

(** [item.platforms?.[chainCfg.coingeckoPlatform]] (line 108): the key is
    evaluated only when [item.platforms] is neither null nor undefined. *)
Definition lookup_address (item chainCfg : value) : result value :=
  let* platforms := get_prop item "platforms" in
  if nullish platforms then Ok VUndef
  else
    let* slug := get_prop chainCfg "coingeckoPlatform" in
    let* key := to_property_key slug in
    get_prop platforms key.

(** [item.symbol?.toUpperCase() || ""] (line 115). *)
Definition normalized_symbol (item : value) : result value :=
  let* sym := get_prop item "symbol" in
  let* upper :=
    (if nullish sym then Ok VUndef
     else
       let* f := get_prop sym "toUpperCase" in
       call_method sym f "item.symbol?.toUpperCase") in
  Ok (if truthy upper then upper else VStr "").

(** The object literal of lines 111-118, fields evaluated in source order. *)
Definition make_token (item chainCfg address : value) : result value :=
  let* chainId := get_prop chainCfg "chainId" in
  let* name := get_prop item "name" in
  let* symbol := normalized_symbol item in
  let* decimals := get_prop chainCfg "decimals" in
  Ok (VObj [ ("chainId", chainId); ("address", address); ("name", name);
             ("symbol", symbol); ("decimals", decimals);
             ("logoURI", VStr "") ]).

(** The loop body, with the array [tokens] threaded through the iterations. *)
Fixpoint transform_loop (items : list value) (chainCfg : value)
    (tokens : list value) : result (list value) :=
  match items with
  | [] => Ok tokens
  | item :: rest =>
      let* address := lookup_address item chainCfg in
      if negb (truthy address) then transform_loop rest chainCfg tokens
      else
        let* token := make_token item chainCfg address in
        transform_loop rest chainCfg (tokens ++ [token])
  end.

Definition transformCoinGeckoData (geckoData chainCfg : value)
    : result (list value) :=
  let* items := iterate geckoData in
  transform_loop items chainCfg [].

(** ** JSON.stringify(value, null, 2) *)

Definition dquote : ascii := ascii_of_nat 34.

Definition newline : ascii := ascii_of_nat 10.

Definition nl : string := String newline EmptyString.

Definition gap : string := "  ".

Definition hex_digit (n : N) : ascii :=
  if (n <? 10)%N then ascii_of_N (48 + n) else ascii_of_N (87 + n).

(** QuoteJSONString, one character at a time. *)
Definition quote_char (c : ascii) : string :=
  let n := N_of_ascii c in
  if (n =? 34)%N then String "\" (String dquote EmptyString)
  else if (n =? 92)%N then "\\"
  else if (n =? 8)%N then "\b"
  else if (n =? 9)%N then "\t"
  else if (n =? 10)%N then "\n"
  else if (n =? 12)%N then "\f"
  else if (n =? 13)%N then "\r"
  else if (n <? 32)%N then
    "\u00" +:+ String (hex_digit (n / 16)) (String (hex_digit (n mod 16)) EmptyString)
  else String c EmptyString.

Fixpoint quote_body (s : string) : string :=
  match s with
  | EmptyString => EmptyString
  | String c rest => quote_char c +:+ quote_body rest
  end.

Definition quote (s : string) : string :=
  String dquote (quote_body s +:+ String dquote EmptyString).

Fixpoint join (sep : string) (parts : list string) : string :=
  match parts with
  | [] => EmptyString
  | [x] => x
  | x :: rest => x +:+ sep +:+ join sep rest
  end.

(** The text of an array or object whose members are already serialised;
    [indent] is the indentation of the enclosing line. *)
Definition enclose (opening closing indent : string) (parts : list string)
    : string :=
  match parts with
  | [] => opening +:+ closing
  | _ =>
      opening +:+ nl +:+ (indent +:+ gap)
        +:+ join ("," +:+ nl +:+ (indent +:+ gap)) parts
        +:+ nl +:+ indent +:+ closing
  end.

(** SerializeJSONProperty; [None] is the undefined result, which drops a
    property from an object and prints as null inside an array. *)
Fixpoint serialize (indent : string) (v : value) : option string :=
  match v with
  | VUndef => None
  | VNull => Some "null"
  | VBool true => Some "true"
  | VBool false => Some "false"
  | VNum n => Some (number_to_string n)
  | VStr s => Some (quote s)
  | VArr elems =>
      Some (enclose "[" "]" indent
              (map (fun x => default "null" (serialize (indent +:+ gap) x)) elems))
  | VObj props =>
      Some (enclose "{" "}" indent
              (omap (fun kx =>
                       option_map (fun str => quote (fst kx) +:+ ": " +:+ str)
                                  (serialize (indent +:+ gap) (snd kx)))
                    props))
  | VNative (Proto CObject) => Some "{}"
  | VNative (Proto CArray) => Some "[]"
  | VNative (Proto CString) => Some (quote "")
  | VNative (Proto CNumber) => Some "0"
  | VNative (Proto CBoolean) => Some "false"
  | VNative (NativeFn _) => None
  end.

Definition JSON_stringify (v : value) : option string := serialize "" v.

(** ** The process and its environment *)

(** What a call of [axios.get] settles to: it resolves with the [data] of
    the response, which is the value of the body when the body is a JSON
    text and the body itself, as a string, when it is not; it rejects when
    the request fails. *)
Inductive http_reply :=
| Resolved (data : value)
| Rejected (message : string).

(** Everything a run reads from outside: the first command line argument,
    the remote service, the two readings of the clock (lines 70 and 140),
    and the working directory with the names that can be written. *)
Record World := {
  argv2 : option string;
  http_get : string -> http_reply;
  date_first : string;
  date_second : string;
  files : gmap string string;
  writable : string -> bool;
}.

Record Process := {
  stderr : list string;
  stdout : list string;
  disk : gmap string string;
}.

Definition console_error (line : string) (p : Process) : Process :=
  {| stderr := stderr p ++ [line]; stdout := stdout p; disk := disk p |}.

Definition console_log (line : string) (p : Process) : Process :=
  {| stderr := stderr p; stdout := stdout p ++ [line]; disk := disk p |}.

(** [fs.writeFileSync(name, text)] overwrites the file or throws. *)
Definition writeFileSync (w : World) (name : string) (text : option string)
    (p : Process) : result unit * Process :=
  match text with
  | None => (Throw (TypeError "The data argument must be of type string"), p)
  | Some content =>
      if writable w name
      then (Ok tt, {| stderr := stderr p; stdout := stdout p;
                      disk := <[name := content]> (disk p) |})
      else (Throw (SystemError ("cannot open '" +:+ name +:+ "'")), p)
  end.

(** Line 54: [process.argv[2] || "base"]. *)
Definition chainKey (w : World) : string :=
  match argv2 w with
  | Some arg => if truthy (VStr arg) then arg else "base"
  | None => "base"
  end.

(** ** createTokenListBase (lines 65-78) *)

Definition createTokenListBase (w : World) (chainCfg : value) : result value :=
  let* name := get_prop chainCfg "name" in
  Ok (VObj [ ("name", name);
             ("logoURI", VStr "https://example.com/logo.png");
             ("keywords", VArr [VStr (chainKey w); VStr "tokenlist"]);
             ("timestamp", VStr (date_first w));
             ("version",
               VObj [("major", VNum 1); ("minor", VNum 0); ("patch", VNum 0)]);
             ("tokens", VArr []) ]).

(** ** fetchTokensFromCoinGecko (lines 84-93) *)

Definition coins_list_url (platform : string) : string :=
  "https://api.coingecko.com/api/v3/coins/list?platform=" +:+ platform.

Definition fetch_failure_line (message : string) : string :=
  "抓取 CoinGecko 数据失败: " +:+ message.

(** The template literal of line 86 converts [platform] as a property key is
    converted; a rejected request is caught, reported and turned into the
    empty array. *)
Definition fetchTokensFromCoinGecko (w : World) (platform : value)
    (p : Process) : result value * Process :=
  match to_property_key platform with
  | Ok text =>
      match http_get w (coins_list_url text) with
      | Resolved data => (Ok data, p)
      | Rejected message =>
          (Ok (VArr []), console_error (fetch_failure_line message) p)
      end
  | Throw e => (Throw e, p)
  | NotModelled => (NotModelled, p)
  end.

(** ** buildTokenList (lines 126-148) *)

(** An assignment [obj.k = v] to an object, for the keys the script assigns
    ([timestamp] and [tokens], lines 140-141): the property keeps its place,
    a new property goes last.  The accessor [__proto__] is no such key. *)
Fixpoint set_own (k : string) (v : value) (props : list (string * value))
    : list (string * value) :=
  match props with
  | [] => [(k, v)]
  | (k', x) :: rest =>
      if String.eqb k k' then (k', v) :: rest else (k', x) :: set_own k v rest
  end.

Definition set_prop (obj : value) (k : string) (v : value) : value :=
  match obj with
  | VObj props => VObj (set_own k v props)
  | _ => obj
  end.

Definition output_file_name (key : string) : string :=
  key +:+ "-tokenlist.json".

Definition done_line (key : string) : string :=
  "Token List for [" +:+ key +:+ "] 构建完成, 文件已生成: "
    +:+ output_file_name key.

Definition buildTokenList (w : World) (p : Process) : result unit * Process :=
  match get_prop CHAIN_CONFIG (chainKey w) with
  | Ok chainCfg =>
  match createTokenListBase w chainCfg with
  | Ok tokenListBase =>
  match get_prop chainCfg "coingeckoPlatform" with
  | Ok platform =>
  match fetchTokensFromCoinGecko w platform p with
  | (Ok geckoData, p1) =>
  match transformCoinGeckoData geckoData chainCfg with
  | Ok tokenItems =>
      let stamped := set_prop tokenListBase "timestamp" (VStr (date_second w)) in
      let filled := set_prop stamped "tokens" (VArr tokenItems) in
      let outputFileName := output_file_name (chainKey w) in
      match writeFileSync w outputFileName (JSON_stringify filled) p1 with
      | (Ok _, p2) => (Ok tt, console_log (done_line (chainKey w)) p2)
      | (Throw e, p2) => (Throw e, p2)
      | (NotModelled, p2) => (NotModelled, p2)
      end
  | Throw e => (Throw e, p1)
  | NotModelled => (NotModelled, p1)
  end
  | (Throw e, p1) => (Throw e, p1)
  | (NotModelled, p1) => (NotModelled, p1)
  end
  | Throw e => (Throw e, p)
  | NotModelled => (NotModelled, p)
  end
  | Throw e => (Throw e, p)
  | NotModelled => (NotModelled, p)
  end
  | Throw e => (Throw e, p)
  | NotModelled => (NotModelled, p)
  end.

(** ** The script (lines 54-62 and 151) *)

Record Outcome := {
  process : Process;
  exit_code : Z;
}.

Definition unsupported_line (key : string) : string :=
  "Unsupported chain key: " +:+ key +:+ ". Please check CHAIN_CONFIG.".

(** The line that names the error in the report of the runtime; the source
    position and the stack, which the runtime prints around it, are left
    out. *)
Definition error_message (e : error) : string :=
  match e with
  | TypeError msg => "TypeError: " +:+ msg
  | SyntaxError msg => "SyntaxError: " +:+ msg
  | SystemError msg => "Error: " +:+ msg
  end.

(** The guard of line 59 exits with status 1.  Otherwise [buildTokenList]
    runs; a promise it rejects is not handled, which the runtime reports on
    the error stream before it exits with status 1.  [None]: the run left
    the modelled fragment. *)
Definition main (w : World) : option Outcome :=
  let p0 := {| stderr := []; stdout := []; disk := files w |} in
  match get_prop CHAIN_CONFIG (chainKey w) with
  | Ok chainCfg =>
      if negb (truthy chainCfg)
      then Some {| process := console_error (unsupported_line (chainKey w)) p0;
                   exit_code := 1 |}
      else
        match buildTokenList w p0 with
        | (Ok _, p) => Some {| process := p; exit_code := 0 |}
        | (Throw e, p) =>
            Some {| process := console_error (error_message e) p;
                    exit_code := 1 |}
        | (NotModelled, _) => None
        end
  | Throw _ | NotModelled => None
  end.

(** ** JSON.parse *)

(** The lexical tokens of a JSON text. *)
Inductive jtoken :=
| TLBrace | TRBrace | TLBracket | TRBracket | TColon | TComma
| TString (s : string)
| TNumber (n : Z)
| TTrue | TFalse | TNull.

(** The scanner is an automaton over the characters of the text.  A number
    keeps the digits read so far, the last one first. *)
Inductive lex_state :=
| LStart
| LString (acc : string)
| LEscape (acc : string)
| LUnicode (acc : string) (count : nat) (code : N)
| LMinus
| LNumber (negative : bool) (digits : Decimal.uint)
| LWord (expected : string) (tok : jtoken).

Definition is_ws (c : ascii) : bool :=
  let n := N_of_ascii c in
  ((n =? 32) || (n =? 9) || (n =? 10) || (n =? 13))%N.

Definition digit_of (c : ascii) : option (Decimal.uint -> Decimal.uint) :=
  match N_of_ascii c with
  | 48%N => Some Decimal.D0 | 49%N => Some Decimal.D1
  | 50%N => Some Decimal.D2 | 51%N => Some Decimal.D3
  | 52%N => Some Decimal.D4 | 53%N => Some Decimal.D5
  | 54%N => Some Decimal.D6 | 55%N => Some Decimal.D7
  | 56%N => Some Decimal.D8 | 57%N => Some Decimal.D9
  | _ => None
  end.

Definition hex_value (c : ascii) : option N :=
  let n := N_of_ascii c in
  if ((48 <=? n) && (n <=? 57))%N then Some (n - 48)%N
  else if ((97 <=? n) && (n <=? 102))%N then Some (n - 87)%N
  else if ((65 <=? n) && (n <=? 70))%N then Some (n - 55)%N
  else None.

Definition number_value (negative : bool) (digits : Decimal.uint) : Z :=
  Z.of_int (if negative then Decimal.Neg (Decimal.rev digits)
            else Decimal.Pos (Decimal.rev digits)).

Definition push_char (acc : string) (c : ascii) : string :=
  acc +:+ String c EmptyString.

Definition unexpected : error := SyntaxError "Unexpected token in JSON".

(** A character met between two tokens. *)
Definition start_step (c : ascii) : result (list jtoken * lex_state) :=
  let n := N_of_ascii c in
  if is_ws c then Ok ([], LStart)
  else if (n =? 123)%N then Ok ([TLBrace], LStart)
  else if (n =? 125)%N then Ok ([TRBrace], LStart)
  else if (n =? 91)%N then Ok ([TLBracket], LStart)
  else if (n =? 93)%N then Ok ([TRBracket], LStart)
  else if (n =? 58)%N then Ok ([TColon], LStart)
  else if (n =? 44)%N then Ok ([TComma], LStart)
  else if (n =? 34)%N then Ok ([], LString EmptyString)
  else if (n =? 45)%N then Ok ([], LMinus)
  else if (n =? 116)%N then Ok ([], LWord "rue" TTrue)
  else if (n =? 102)%N then Ok ([], LWord "alse" TFalse)
  else if (n =? 110)%N then Ok ([], LWord "ull" TNull)
  else match digit_of c with
       | Some d => Ok ([], LNumber false (d Decimal.Nil))
       | None => Throw unexpected
       end.

Definition escape_step (acc : string) (c : ascii)
    : result (list jtoken * lex_state) :=
  let n := N_of_ascii c in
  if ((n =? 34) || (n =? 92) || (n =? 47))%N then Ok ([], LString (push_char acc c))
  else if (n =? 98)%N then Ok ([], LString (push_char acc (ascii_of_N 8)))
  else if (n =? 102)%N then Ok ([], LString (push_char acc (ascii_of_N 12)))
  else if (n =? 110)%N then Ok ([], LString (push_char acc (ascii_of_N 10)))
  else if (n =? 114)%N then Ok ([], LString (push_char acc (ascii_of_N 13)))
  else if (n =? 116)%N then Ok ([], LString (push_char acc (ascii_of_N 9)))
  else if (n =? 117)%N then Ok ([], LUnicode acc 0 0)
  else Throw unexpected.

Definition step (st : lex_state) (c : ascii) : result (list jtoken * lex_state) :=
  match st with
  | LStart => start_step c
  | LString acc =>
      let n := N_of_ascii c in
      if (n =? 34)%N then Ok ([TString acc], LStart)
      else if (n =? 92)%N then Ok ([], LEscape acc)
      else if (n <? 32)%N then Throw unexpected
      else Ok ([], LString (push_char acc c))
  | LEscape acc => escape_step acc c
  | LUnicode acc count code =>
      match hex_value c with
      | None => Throw unexpected
      | Some h =>
          let code' := (code * 16 + h)%N in
          if (count =? 3)%nat then
            if (code' <? 128)%N
            then Ok ([], LString (push_char acc (ascii_of_N code')))
            else NotModelled
          else Ok ([], LUnicode acc (S count) code')
      end
  | LMinus =>
      match digit_of c with
      | Some d => Ok ([], LNumber true (d Decimal.Nil))
      | None => Throw unexpected
      end
  | LNumber negative digits =>
      match digit_of c with
      | Some d =>
          match digits with
          | Decimal.D0 Decimal.Nil => Throw unexpected
          | _ => Ok ([], LNumber negative (d digits))
          end
      | None =>
          let n := N_of_ascii c in
          if ((n =? 46) || (n =? 101) || (n =? 69))%N then NotModelled
          else
            match start_step c with
            | Ok (emitted, st') =>
                Ok (TNumber (number_value negative digits) :: emitted, st')
            | Throw e => Throw e
            | NotModelled => NotModelled
            end
      end
  | LWord expected tok =>
      match expected with
      | String e EmptyString =>
          if Ascii.eqb c e then Ok ([tok], LStart) else Throw unexpected
      | String e more =>
          if Ascii.eqb c e then Ok ([], LWord more tok) else Throw unexpected
      | EmptyString => Throw unexpected
      end
  end.

Definition finish (st : lex_state) : result (list jtoken) :=
  match st with
  | LStart => Ok []
  | LNumber negative digits => Ok [TNumber (number_value negative digits)]
  | _ => Throw (SyntaxError "Unexpected end of JSON input")
  end.

(** The tokens [ts] followed by the tokens of the rest of the text. *)
Definition prefix (ts : list jtoken) (r : result (list jtoken))
    : result (list jtoken) :=
  match ts with
  | [] => r
  | _ => match r with
         | Ok more => Ok (ts ++ more)
         | Throw e => Throw e
         | NotModelled => NotModelled
         end
  end.

Fixpoint lex_from (st : lex_state) (text : string) : result (list jtoken) :=
  match text with
  | EmptyString => finish st
  | String c rest =>
      match step st c with
      | Ok (emitted, st') => prefix emitted (lex_from st' rest)
      | Throw e => Throw e
      | NotModelled => NotModelled
      end
  end.

(** The parser is a stack machine over the tokens: a frame is an array or an
    object under construction. *)
Inductive frame :=
| FArray (elems : list value)
| FObject (props : list (string * value)) (key : string).

Inductive parse_state :=
| PValue (stack : list frame)
| PFirstElement (stack : list frame)
| PFirstKey (stack : list frame)
| PKey (props : list (string * value)) (stack : list frame)
| PColon (props : list (string * value)) (key : string) (stack : list frame)
| PAfter (v : value) (stack : list frame).

(** Keys that an object orders before the others: the canonical decimals
    below 2^32 - 1. *)
Definition array_index_key (k : string) : bool :=
  match DecimalString.NilZero.uint_of_string k with
  | Some d =>
      String.eqb (number_to_string (Z.of_N (N.of_uint d))) k
      && (N.of_uint d <? 4294967295)%N
  | None => false
  end.

(** CreateDataProperty while parsing; objects with array index keys are
    outside the fragment, since they reorder their properties. *)
Definition define_prop (k : string) (v : value) (props : list (string * value))
    : result (list (string * value)) :=
  if array_index_key k then NotModelled else Ok (set_own k v props).

Definition value_step (stack : list frame) (t : jtoken) : result parse_state :=
  match t with
  | TNull => Ok (PAfter VNull stack)
  | TTrue => Ok (PAfter (VBool true) stack)
  | TFalse => Ok (PAfter (VBool false) stack)
  | TNumber n => Ok (PAfter (VNum n) stack)
  | TString s => Ok (PAfter (VStr s) stack)
  | TLBracket => Ok (PFirstElement stack)
  | TLBrace => Ok (PFirstKey stack)
  | TRBrace | TRBracket | TColon | TComma => Throw unexpected
  end.

Definition parse_step (st : parse_state) (t : jtoken) : result parse_state :=
  match st with
  | PValue stack => value_step stack t
  | PFirstElement stack =>
      match t with
      | TRBracket => Ok (PAfter (VArr []) stack)
      | _ => value_step (FArray [] :: stack) t
      end
  | PFirstKey stack =>
      match t with
      | TRBrace => Ok (PAfter (VObj []) stack)
      | TString k => Ok (PColon [] k stack)
      | _ => Throw unexpected
      end
  | PKey props stack =>
      match t with
      | TString k => Ok (PColon props k stack)
      | _ => Throw unexpected
      end
  | PColon props k stack =>
      match t with
      | TColon => Ok (PValue (FObject props k :: stack))
      | _ => Throw unexpected
      end
  | PAfter v [] => Throw unexpected
  | PAfter v (FArray elems :: stack) =>
      match t with
      | TComma => Ok (PValue (FArray (elems ++ [v]) :: stack))
      | TRBracket => Ok (PAfter (VArr (elems ++ [v])) stack)
      | _ => Throw unexpected
      end
  | PAfter v (FObject props k :: stack) =>
      match define_prop k v props with
      | Ok props' =>
          match t with
          | TComma => Ok (PKey props' stack)
          | TRBrace => Ok (PAfter (VObj props') stack)
          | _ => Throw unexpected
          end
      | Throw e => Throw e
      | NotModelled => NotModelled
      end
  end.

Fixpoint parse_from (st : parse_state) (ts : list jtoken) : result value :=
  match ts with
  | [] =>
      match st with
      | PAfter v [] => Ok v
      | _ => Throw (SyntaxError "Unexpected end of JSON input")
      end
  | t :: rest =>
      match parse_step st t with
      | Ok st' => parse_from st' rest
      | Throw e => Throw e
      | NotModelled => NotModelled
      end
  end.

Definition JSON_parse (text : string) : result value :=
  let* tokens := lex_from LStart text in
  parse_from (PValue []) tokens.

(** * The specification *)

(** ** The data model of the specification (section 3) *)

Record NetworkConfig := {
  networkId : Z;
  platformSlug : string;
  displayName : string;
  decimals : Z;
}.

(** An upstream coin record; a field that may be missing is an option, and a
    platform may be listed without an address. *)
Record UpstreamCoinRecord := {
  coin_id : string;
  coin_symbol : option string;
  coin_name : option string;
  coin_platforms : option (list (string * option string));
}.

Record TokenRecord := {
  token_networkId : Z;
  token_address : string;
  token_name : option string;
  token_symbol : string;
  token_decimals : Z;
  token_logo : string;
}.

(** The JavaScript objects these records stand for. *)
Definition config_value (cfg : NetworkConfig) : value :=
  VObj [ ("chainId", VNum (networkId cfg));
         ("coingeckoPlatform", VStr (platformSlug cfg));
         ("name", VStr (displayName cfg));
         ("decimals", VNum (decimals cfg)) ].

Definition field (k : string) (o : option value) : list (string * value) :=
  match o with
  | Some v => [(k, v)]
  | None => []
  end.

Definition address_value (a : option string) : value :=
  match a with
  | Some text => VStr text
  | None => VNull
  end.

Definition platforms_value (ps : list (string * option string)) : value :=
  VObj (map (fun entry => (fst entry, address_value (snd entry))) ps).

Definition coin_value (r : UpstreamCoinRecord) : value :=
  VObj (("id", VStr (coin_id r))
          :: field "symbol" (option_map VStr (coin_symbol r))
          ++ field "name" (option_map VStr (coin_name r))
          ++ field "platforms" (option_map platforms_value (coin_platforms r))).

Definition token_value (t : TokenRecord) : value :=
  VObj [ ("chainId", VNum (token_networkId t));
         ("address", VStr (token_address t));
         ("name", match token_name t with Some n => VStr n | None => VUndef end);
         ("symbol", VStr (token_symbol t));
         ("decimals", VNum (token_decimals t));
         ("logoURI", VStr (token_logo t)) ].

(** ** The transformer as the specification words it (section 4.3) *)

Fixpoint assoc {A} (k : string) (l : list (string * A)) : option A :=
  match l with
  | [] => None
  | (k', x) :: rest => if String.eqb k k' then Some x else assoc k rest
  end.

(** The contract address a record carries under a platform slug, if any. *)
Definition contract_address (slug : string) (r : UpstreamCoinRecord)
    : option string :=
  match coin_platforms r with
  | None => None
  | Some ps =>
      match assoc slug ps with
      | Some (Some a) => if String.eqb a "" then None else Some a
      | Some None | None => None
      end
  end.

Definition spec_token (cfg : NetworkConfig) (r : UpstreamCoinRecord)
    (a : string) : TokenRecord :=
  {| token_networkId := networkId cfg;
     token_address := a;
     token_name := coin_name r;
     token_symbol := match coin_symbol r with
                     | Some s => toUpperCase s
                     | None => ""
                     end;
     token_decimals := decimals cfg;
     token_logo := "" |}.

(** Filter and map: one token per record that carries an address, in the
    order of the records. *)
Definition spec_transform (cfg : NetworkConfig)
    (records : list UpstreamCoinRecord) : list TokenRecord :=
  omap (fun r => option_map (spec_token cfg r)
                   (contract_address (platformSlug cfg) r))
       records.

(** The network identifiers the documentation gives for the supported keys. *)
Definition documented_networkId (key : string) : option Z :=
  if String.eqb key "base" then Some 8453
  else if String.eqb key "bsc" then Some 56
  else if String.eqb key "ethereum" then Some 1
  else if String.eqb key "polygon" then Some 137
  else None.

(** ** Notions for the statements about the transformer *)

(** A property of a token, as the writer of the file sees it. *)
Definition token_field (k : string) (t : value) : option value :=
  match t with
  | VObj props => own k props
  | _ => None
  end.




(** A key that resolves in the table to a configuration with the network
    identifier [id]. *)
Definition resolves_to (key : string) (id : Z) : Prop :=
  exists chainCfg,
    get_prop CHAIN_CONFIG key = Ok chainCfg /\
    truthy chainCfg = true /\
    get_prop chainCfg "chainId" = Ok (VNum id).


(** Whether the loop keeps an item. *)
Definition passes (chainCfg item : value) : bool :=
  match lookup_address item chainCfg with
  | Ok address => truthy address
  | _ => false
  end.

(** A token is the one the loop makes for an item. *)
Definition made_from (chainCfg item token : value) : Prop :=
  exists address,
    lookup_address item chainCfg = Ok address /\
    truthy address = true /\
    make_token item chainCfg address = Ok token.

(** The value the loop reads for a record of the data model. *)
Definition address_read (slug : string) (r : UpstreamCoinRecord) : value :=
  match coin_platforms r with
  | None => VUndef
  | Some ps =>
      match assoc slug ps with
      | Some a => address_value a
      | None => inherited CObject slug
      end
  end.

(** Decimal keys start with a digit or a sign. *)
Definition numeric_start (k : string) : bool :=
  match k with
  | EmptyString => false
  | String c _ =>
      let n := nat_of_ascii c in
      ((48 <=? n) && (n <=? 57) || (n =? 45))%nat
  end.

(** ** Notions for the statements about runs *)

(** The envelope that reaches [JSON.stringify]. *)
Definition envelope (name : value) (key timestamp : string)
    (tokens : list value) : value :=
  VObj [ ("name", name);
         ("logoURI", VStr "https://example.com/logo.png");
         ("keywords", VArr [VStr key; VStr "tokenlist"]);
         ("timestamp", VStr timestamp);
         ("version",
           VObj [("major", VNum 1); ("minor", VNum 0); ("patch", VNum 0)]);
         ("tokens", VArr tokens) ].

(** The request and what it leaves on the error stream. *)
Definition fetched (w : World) (slug : string) : value * list string :=
  match http_get w (coins_list_url slug) with
  | Resolved data => (data, [])
  | Rejected message => (VArr [], [fetch_failure_line message])
  end.

(** A run that got past the guard, in closed form. *)
Definition outcome_past_guard (w : World) (chainCfg name : value)
    (slug : string) : option Outcome :=
  let file := output_file_name (chainKey w) in
  match transformCoinGeckoData (fetched w slug).1 chainCfg with
  | Ok tokens =>
      match JSON_stringify
              (envelope name (chainKey w) (date_second w) tokens) with
      | Some text =>
          if writable w file
          then Some {| process :=
                         {| stderr := (fetched w slug).2;
                            stdout := [done_line (chainKey w)];
                            disk := <[file := text]> (files w) |};
                       exit_code := 0 |}
          else Some {| process :=
                         {| stderr := (fetched w slug).2 ++
                              [error_message
                                 (SystemError ("cannot open '" +:+ file +:+ "'"))];
                            stdout := [];
                            disk := files w |};
                       exit_code := 1 |}
      | None => None
      end
  | Throw e =>
      Some {| process := {| stderr := (fetched w slug).2 ++ [error_message e];
                            stdout := [];
                            disk := files w |};
              exit_code := 1 |}
  | NotModelled => None
  end.

(** What the run reads from the resolved configuration before the request. *)
Definition config_reads (chainCfg : value) : result (value * string) :=
  let* name := get_prop chainCfg "name" in
  let* platform := get_prop chainCfg "coingeckoPlatform" in
  let* slug := to_property_key platform in
  Ok (name, slug).

(** Two worlds that give a run the same command line, the same answers
    from the remote service and the same writable names. *)
Definition same_inputs (w1 w2 : World) : Prop :=
  argv2 w1 = argv2 w2 /\
  (forall url, http_get w1 url = http_get w2 url) /\
  (forall file, writable w1 file = writable w2 file).

(** Two outcomes that differ at most in the timestamp of the envelope they
    wrote. *)
Definition same_up_to_timestamp (w1 w2 : World) (o1 o2 : Outcome) : Prop :=
  exit_code o1 = exit_code o2 /\
  stderr (process o1) = stderr (process o2) /\
  stdout (process o1) = stdout (process o2) /\
  ((disk (process o1) = files w1 /\ disk (process o2) = files w2) \/
   exists file name key tokens text1 text2,
     JSON_stringify (envelope name key (date_second w1) tokens) = Some text1 /\
     JSON_stringify (envelope name key (date_second w2) tokens) = Some text2 /\
     disk (process o1) = <[file := text1]> (files w1) /\
     disk (process o2) = <[file := text2]> (files w2)).

(** ** Notions for the statements about JSON texts *)

(** The tokens of a JSON value. *)
Fixpoint join_tokens (parts : list (list jtoken)) : list jtoken :=
  match parts with
  | [] => []
  | [x] => x
  | x :: rest => x ++ TComma :: join_tokens rest
  end.

Fixpoint tokens_of (v : value) : list jtoken :=
  match v with
  | VUndef | VNative _ => []
  | VNull => [TNull]
  | VBool true => [TTrue]
  | VBool false => [TFalse]
  | VNum n => [TNumber n]
  | VStr s => [TString s]
  | VArr elems =>
      TLBracket :: join_tokens (map tokens_of elems) ++ [TRBracket]
  | VObj props =>
      TLBrace
        :: join_tokens
             (map (fun kx => TString (fst kx) :: TColon :: tokens_of (snd kx))
                  props)
        ++ [TRBrace]
  end.

Fixpoint distinct (ks : list string) : bool :=
  match ks with
  | [] => true
  | k :: rest => negb (mem k rest) && distinct rest
  end.

(** The values that JSON texts denote in the fragment: no undefined, no
    built-in object, and objects with distinct keys none of which is an
    array index. *)
Fixpoint json (v : value) : bool :=
  match v with
  | VUndef | VNative _ => false
  | VNull | VBool _ | VNum _ | VStr _ => true
  | VArr elems => forallb json elems
  | VObj props =>
      distinct (map fst props)
      && forallb (fun k => negb (array_index_key k)) (map fst props)
      && forallb (fun kx => json (snd kx)) props
  end.

(** Objects as the runtime builds them in the fragment: distinct keys, none
    of them an array index. *)
Fixpoint well_keyed (v : value) : bool :=
  match v with
  | VArr elems => forallb well_keyed elems
  | VObj props =>
      distinct (map fst props)
      && forallb (fun k => negb (array_index_key k)) (map fst props)
      && forallb (fun kx => well_keyed (snd kx)) props
  | _ => true
  end.



(** What a JSON text keeps of a value: undefined and functions are dropped
    from objects and become null in arrays; the prototype objects print as
    the primitive or the empty container they wrap. *)
Fixpoint json_image (v : value) : option value :=
  match v with
  | VUndef => None
  | VNull | VBool _ | VNum _ | VStr _ => Some v
  | VArr elems =>
      Some (VArr (map (fun x => default VNull (json_image x)) elems))
  | VObj props =>
      Some (VObj (omap (fun kx => option_map (pair (fst kx))
                                             (json_image (snd kx)))
                       props))
  | VNative (Proto CObject) => Some (VObj [])
  | VNative (Proto CArray) => Some (VArr [])
  | VNative (Proto CString) => Some (VStr "")
  | VNative (Proto CNumber) => Some (VNum 0)
  | VNative (Proto CBoolean) => Some (VBool false)
  | VNative (NativeFn _) => None
  end.




(** Text made of spaces only. *)
Fixpoint blank (s : string) : bool :=
  match s with
  | EmptyString => true
  | String c rest => (N_of_ascii c =? 32)%N && blank rest
  end.

(** What may follow a value in the text that [serialize] produces: the end,
    a comma or a line break. *)
Definition sep_or_end (rest : string) : Prop :=
  match rest with
  | EmptyString => True
  | String c _ => c = ","%char \/ c = newline
  end.

(** A piece of text that scans to the tokens [ts] wherever a value may
    stand. *)
Definition lexes (text : string) (ts : list jtoken) : Prop :=
  forall rest, sep_or_end rest ->
    lex_from LStart (text +:+ rest) = prefix ts (lex_from LStart rest).

(** What the induction gives for the values inside an array or object. *)
Definition parses (v : value) : Prop :=
  forall stack rest,
    parse_from (PValue stack) (tokens_of v ++ rest) =
    parse_from (PAfter v stack) rest.

(** A value read from JSON data: a JSON value, or undefined for a missing
    property. *)
Definition plain (v : value) : Prop := json v = true \/ v = VUndef.

(** A key that no prototype object defines and that is no position of an
    array or string. *)
Definition unclaimed (k : string) : Prop :=
  (forall c, inherited c k = VUndef) /\
  String.eqb k "length" = false /\ numeric_start k = false.

(** ** Sample inputs *)

(** Three upstream records; the first and the third carry an address on
    Base, the second is listed on another chain only. *)
Definition sample_records : list UpstreamCoinRecord :=
  [ {| coin_id := "mytoken"; coin_symbol := Some "myt";
       coin_name := Some "MyToken";
       coin_platforms := Some [("base", Some "0xabc123")] |};
    {| coin_id := "other"; coin_symbol := Some "oth";
       coin_name := Some "Other";
       coin_platforms := Some [("ethereum", Some "0x999")] |};
    {| coin_id := "third"; coin_symbol := None;
       coin_name := Some "Third";
       coin_platforms := Some [("ethereum", Some ""); ("base", Some "0xdef456")] |} ].

Definition base_config : NetworkConfig :=
  {| networkId := 8453; platformSlug := "base";
     displayName := "Base Token List"; decimals := 18 |}.

Definition sample_tokens : list value :=
  [ VObj [ ("chainId", VNum 8453); ("address", VStr "0xabc123");
           ("name", VStr "MyToken"); ("symbol", VStr "MYT");
           ("decimals", VNum 18); ("logoURI", VStr "") ];
    VObj [ ("chainId", VNum 8453); ("address", VStr "0xdef456");
           ("name", VStr "Third"); ("symbol", VStr "");
           ("decimals", VNum 18); ("logoURI", VStr "") ] ].

(** A configuration whose slug names an inherited property, and a record
    that is listed on no platform at all. *)
Definition inherited_slug_config : NetworkConfig :=
  {| networkId := 1; platformSlug := "constructor";
     displayName := "List"; decimals := 18 |}.

Definition unlisted_record : UpstreamCoinRecord :=
  {| coin_id := "coin"; coin_symbol := Some "c"; coin_name := Some "Coin";
     coin_platforms := Some [] |}.


Definition nameless_record : UpstreamCoinRecord :=
  {| coin_id := "anon"; coin_symbol := None; coin_name := None;
     coin_platforms := Some [("base", Some "0xabc123")] |}.

(** A world whose command line names the inherited property [constructor]. *)
Definition constructor_world : World :=
  {| argv2 := Some "constructor";
     http_get := fun _ => Resolved (VArr (map coin_value sample_records));
     date_first := "2024-01-01T00:00:00.000Z";
     date_second := "2024-01-01T00:00:01.000Z";
     files := ∅;
     writable := fun _ => true |}.

(** A world in which the request for the Base coin list is rejected. *)
Definition offline_world : World :=
  {| argv2 := None;
     http_get := fun _ => Rejected "Network Error";
     date_first := "2024-01-01T00:00:00.000Z";
     date_second := "2024-01-01T00:00:01.000Z";
     files := ∅;
     writable := fun _ => true |}.

Definition later_world : World :=
  {| argv2 := None;
     http_get := fun _ => Rejected "Network Error";
     date_first := "2024-06-30T12:00:00.000Z";
     date_second := "2024-06-30T12:00:02.500Z";
     files := {[ "base-tokenlist.json" := "stale" ]};
     writable := fun _ => true |}.





(** A world in which the service answers with a page that is no JSON text;
    [axios.get] then resolves, and delivers the body as a string. *)
Definition error_page : string := "<html>Service Unavailable</html>".

Definition unparseable_world : World :=
  {| argv2 := Some "base";
     http_get := fun _ => Resolved (VStr error_page);
     date_first := "2024-01-01T00:00:00.000Z";
     date_second := "2024-01-01T00:00:01.000Z";
     files := ∅;
     writable := fun _ => true |}.

(** ** Notions for the further properties *)

(** The same world with another first argument on the command line. *)
Definition with_argument (arg : option string) (w : World) : World :=
  {| argv2 := arg;
     http_get := http_get w;
     date_first := date_first w;
     date_second := date_second w;
     files := files w;
     writable := writable w |}.

(** How a run ends when the guard of line 59 refuses the key. *)
Definition refusal (w : World) : Outcome :=
  {| process := {| stderr := [unsupported_line (chainKey w)];
                   stdout := [];
                   disk := files w |};
     exit_code := 1 |}.

(** The replies that [for ... of] cannot iterate. *)
Definition not_iterable (v : value) : bool :=
  match v with
  | VUndef | VNull | VBool _ | VNum _ | VObj _ => true
  | VStr _ | VArr _ | VNative _ => false
  end.

(** Data all of whose strings are ASCII text. *)
Fixpoint ascii_text (v : value) : bool :=
  match v with
  | VStr s => ascii_only s
  | VArr elems => forallb ascii_text elems
  | VObj props => forallb (fun kx => ascii_text (snd kx)) props
  | _ => true
  end.

(** Text without any of the letters a-z. *)
Definition lower_case (c : ascii) : bool :=
  let n := nat_of_ascii c in ((97 <=? n) && (n <=? 122))%nat.

Fixpoint no_lower_case (s : string) : bool :=
  match s with
  | EmptyString => true
  | String c rest => negb (lower_case c) && no_lower_case rest
  end.

(** The shape of the object literal of lines 111-118. *)
Definition token_shape (chainId dec t : value) : Prop :=
  exists address name symbol,
    t = VObj [ ("chainId", chainId); ("address", address); ("name", name);
               ("symbol", VStr symbol); ("decimals", dec);
               ("logoURI", VStr "") ] /\
    truthy address = true.

(** A working directory that holds other files. *)
Definition crowded_world : World :=
  {| argv2 := Some "ethereum";
     http_get := fun _ => Resolved (VArr (map coin_value sample_records));
     date_first := "2024-03-01T08:00:00.000Z";
     date_second := "2024-03-01T08:00:03.000Z";
     files := {[ "notes.txt" := "keep";
                 "ethereum-tokenlist.json" := "stale" ]};
     writable := fun _ => true |}.

(** A world in which the service answers with an object, not an array. *)
Definition object_reply_world : World :=
  {| argv2 := Some "bsc";
     http_get := fun _ => Resolved (VObj [("error", VStr "rate limited")]);
     date_first := "2024-03-01T08:00:00.000Z";
     date_second := "2024-03-01T08:00:03.000Z";
     files := ∅;
     writable := fun _ => true |}.

(** A world in which the output file cannot be written. *)
Definition readonly_world : World :=
  {| argv2 := Some "polygon";
     http_get := fun _ => Resolved (VArr (map coin_value sample_records));
     date_first := "2024-03-01T08:00:00.000Z";
     date_second := "2024-03-01T08:00:03.000Z";
     files := {[ "polygon-tokenlist.json" := "old" ]};
     writable := fun _ => false |}.

(** A record with an address on Base whose symbol is a number. *)
Definition numeric_symbol_item : value :=
  VObj [ ("id", VStr "odd"); ("symbol", VNum 7); ("name", VStr "Odd");
         ("platforms", VObj [("base", VStr "0x777")]) ].

(** The world in which every request gets the reply [r]. *)
Definition with_reply (r : http_reply) (w : World) : World :=
  {| argv2 := argv2 w;
     http_get := fun _ => r;
     date_first := date_first w;
     date_second := date_second w;
     files := files w;
     writable := writable w |}.

(** The world with the files [fs] in the working directory. *)
Definition with_files (fs : gmap string string) (w : World) : World :=
  {| argv2 := argv2 w;
     http_get := http_get w;
     date_first := date_first w;
     date_second := date_second w;
     files := fs;
     writable := writable w |}.

(** ** Induction on values *)

(** Induction on values, through the arrays and the objects. *)
Section value_induction.
Variable P : value -> Prop.
Hypothesis Hundef : P VUndef.
Hypothesis Hnull : P VNull.
Hypothesis Hbool : forall b, P (VBool b).
Hypothesis Hnum : forall n, P (VNum n).
Hypothesis Hstr : forall s, P (VStr s).
Hypothesis Harr : forall elems, Forall P elems -> P (VArr elems).
Hypothesis Hobj :
  forall props, Forall (fun kx => P (snd kx)) props -> P (VObj props).
Hypothesis Hnative : forall b, P (VNative b).
Fixpoint value_induction (v : value) : P v :=
  match v with
  | VUndef => Hundef
  | VNull => Hnull
  | VBool b => Hbool b
  | VNum n => Hnum n
  | VStr s => Hstr s
  | VArr elems =>
      Harr elems
        ((fix go (l : list value) : Forall P l :=
            match l with
            | [] => @List.Forall_nil _ P
            | x :: xs =>
                @List.Forall_cons _ P x xs (value_induction x) (go xs)
            end) elems)
  | VObj props =>
      Hobj props
        ((fix go (l : list (string * value))
            : Forall (fun kx => P (snd kx)) l :=
            match l with
            | [] => @List.Forall_nil _ _
            | kx :: xs =>
                @List.Forall_cons _ (fun kx => P (snd kx)) kx xs
                  (value_induction (snd kx)) (go xs)
            end) props)
  | VNative b => Hnative b
  end.
End value_induction.

(** * Properties *)

(** ** The result monad *)

Lemma bind_Ok {A B} (m : result A) (k : A -> result B) (b : B) :
  bind m k = Ok b -> exists a, m = Ok a /\ k a = Ok b.
Proof. destruct m as [a| |]; simpl; intros H; try discriminate. eauto. Qed.

(** ** The loop of the transformer *)

(** The array built so far is only ever extended. *)
Lemma transform_loop_acc items chainCfg acc :
  transform_loop items chainCfg acc =
  let* out := transform_loop items chainCfg [] in Ok (acc ++ out).
Proof.
  revert acc. induction items as [|item rest IH]; intros acc; simpl.
  - by rewrite app_nil_r.
  - destruct (lookup_address item chainCfg) as [a| |]; simpl; try done.
    destruct (truthy a); simpl; [|apply IH].
    destruct (make_token item chainCfg a) as [t| |]; simpl; try done.
    rewrite (IH (acc ++ [t])), (IH [t]).
    destruct (transform_loop rest chainCfg []); simpl; try done.
    by rewrite <- app_assoc.
Qed.

(** One iteration, seen from the front of the result. *)
Lemma transform_loop_cons item rest chainCfg :
  transform_loop (item :: rest) chainCfg [] =
  let* address := lookup_address item chainCfg in
  if truthy address then
    let* token := make_token item chainCfg address in
    let* out := transform_loop rest chainCfg [] in
    Ok (token :: out)
  else transform_loop rest chainCfg [].
Proof.
  simpl. destruct (lookup_address item chainCfg) as [a| |]; simpl; try done.
  destruct (truthy a); simpl; [|done].
  destruct (make_token item chainCfg a) as [t| |]; simpl; try done.
  by rewrite transform_loop_acc.
Qed.

Lemma transform_loop_filter items chainCfg tokens :
  transform_loop items chainCfg [] = Ok tokens ->
  Forall2 (made_from chainCfg) (List.filter (passes chainCfg) items) tokens.
Proof.
  revert tokens. induction items as [|item rest IH]; intros tokens.
  - simpl. intros [= <-]. constructor.
  - rewrite transform_loop_cons. intros H.
    apply bind_Ok in H as (a & Ha & H). simpl. unfold passes at 1. rewrite Ha.
    destruct (truthy a) eqn:Ht.
    + apply bind_Ok in H as (t & Hm & H). apply bind_Ok in H as (out & Hout & H).
      injection H as <-. constructor; [|by apply IH]. by exists a.
    + by apply IH.
Qed.

Lemma make_token_fields item chainCfg address token :
  make_token item chainCfg address = Ok token ->
  exists chainId name symbol dec,
    get_prop chainCfg "chainId" = Ok chainId /\
    get_prop chainCfg "decimals" = Ok dec /\
    get_prop item "name" = Ok name /\
    normalized_symbol item = Ok symbol /\
    token = VObj [ ("chainId", chainId); ("address", address); ("name", name);
                   ("symbol", symbol); ("decimals", dec);
                   ("logoURI", VStr "") ].
Proof.
  unfold make_token. intros H.
  apply bind_Ok in H as (c & Hc & H). apply bind_Ok in H as (n & Hn & H).
  apply bind_Ok in H as (s & Hs & H). apply bind_Ok in H as (d & Hd & H).
  injection H as <-. by exists c, n, s, d.
Qed.

Lemma transform_loop_app items1 items2 chainCfg acc :
  transform_loop (items1 ++ items2) chainCfg acc =
  let* mid := transform_loop items1 chainCfg acc in
  transform_loop items2 chainCfg mid.
Proof.
  revert acc. induction items1 as [|item rest IH]; intros acc; simpl; [done|].
  destruct (lookup_address item chainCfg) as [a| |]; simpl; try done.
  destruct (truthy a); simpl; [|apply IH].
  destruct (make_token item chainCfg a) as [t| |]; simpl; try done.
Qed.

(** ** Property reads that miss *)

Lemma inherited_absent k :
  mem k object_prototype_names = false -> inherited CObject k = VUndef.
Proof.
  intros H. unfold inherited. simpl prototype_names. rewrite H.
  destruct (String.eqb_spec k "__proto__") as [->|]; [discriminate H|done].
Qed.

Lemma number_to_string_start n : numeric_start (number_to_string n) = true.
Proof.
  unfold number_to_string.
  destruct (Z.to_int n) as [d|d]; destruct d; reflexivity.
Qed.

Lemma index_of_key_none k n : numeric_start k = false -> index_of_key k n = None.
Proof.
  intros H. unfold index_of_key.
  induction (seq 0 n) as [|i l IH]; simpl; [done|].
  destruct (String.eqb_spec (number_to_string (Z.of_nat i)) k) as [<-|]; [|done].
  by rewrite number_to_string_start in H.
Qed.

(** ** The transformer on records of the data model *)

Lemma own_platforms_value slug ps :
  own slug (map (fun entry : string * option string =>
                   (fst entry, address_value (snd entry))) ps) =
  option_map address_value (assoc slug ps).
Proof.
  induction ps as [|[k a] ps IH]; simpl; [done|].
  by destruct (String.eqb slug k).
Qed.

Lemma lookup_address_record cfg r :
  lookup_address (coin_value r) (config_value cfg) =
  Ok (address_read (platformSlug cfg) r).
Proof.
  destruct r as [i [s|] [n|] [ps|]];
    unfold lookup_address, address_read, coin_value, platforms_value; simpl;
    try done; rewrite own_platforms_value; by destruct (assoc _ ps).
Qed.

Lemma address_read_carried slug r a :
  contract_address slug r = Some a ->
  address_read slug r = VStr a /\ truthy (VStr a) = true.
Proof.
  unfold contract_address, address_read.
  destruct (coin_platforms r) as [ps|]; [|done].
  destruct (assoc slug ps) as [[a'|]|]; try done.
  destruct (String.eqb a' "") eqn:E; [done|]. intros [= ->]. simpl.
  by rewrite E.
Qed.


Lemma normalized_symbol_record r :
  normalized_symbol (coin_value r) =
  Ok (VStr (match coin_symbol r with Some s => toUpperCase s | None => "" end)).
Proof.
  destruct r as [i [s|] [n|] [ps|]]; unfold normalized_symbol, coin_value; simpl;
    try done;
    unfold indexed; simpl; rewrite index_of_key_none by done; simpl;
    by destruct (String.eqb_spec (toUpperCase s) "") as [->|].
Qed.

Lemma make_token_record cfg r address :
  make_token (coin_value r) (config_value cfg) address =
  Ok (VObj [ ("chainId", VNum (networkId cfg)); ("address", address);
             ("name", match coin_name r with Some n => VStr n | None => VUndef end);
             ("symbol", VStr (match coin_symbol r with
                              | Some s => toUpperCase s
                              | None => ""
                              end));
             ("decimals", VNum (decimals cfg)); ("logoURI", VStr "") ]).
Proof.
  unfold make_token. rewrite normalized_symbol_record.
  by destruct r as [i [s|] [n|] [ps|]].
Qed.

(** ** The configuration table *)

Lemma supported_keys_cases (P : string -> Prop) :
  P "base" -> P "bsc" -> P "ethereum" -> P "polygon" ->
  forall key, key ∈ supported_keys -> P key.
Proof.
  intros Hbase Hbsc Heth Hpoly key Hkey.
  repeat (apply elem_of_cons in Hkey as [->|Hkey]; [assumption|]).
  by apply elem_of_nil in Hkey.
Qed.

(** A supported key resolves to its own entry of the table, whose platform
    slug is a string that plain objects do not inherit. *)
Lemma supported_key_config key :
  key ∈ supported_keys ->
  exists cfg, get_prop CHAIN_CONFIG key = Ok (config_value cfg) /\
              mem (platformSlug cfg) object_prototype_names = false /\
              decimals cfg = 18 /\
              documented_networkId key = Some (networkId cfg).
Proof.
  revert key. apply supported_keys_cases.
  - by exists {| networkId := 8453; platformSlug := "base";
                 displayName := "Base Token List"; decimals := 18 |}.
  - by exists {| networkId := 56; platformSlug := "binance-smart-chain";
                 displayName := "BSC Token List"; decimals := 18 |}.
  - by exists {| networkId := 1; platformSlug := "ethereum";
                 displayName := "Ethereum Token List"; decimals := 18 |}.
  - by exists {| networkId := 137; platformSlug := "polygon-pos";
                 displayName := "Polygon Token List"; decimals := 18 |}.
Qed.

(** C5: the table lists the keys base, bsc, ethereum and polygon, and
    resolving each of them gives a configuration whose chain id is the
    documented one: 8453 for base, 56 for bsc, 1 for ethereum and 137 for
    polygon. *)
Theorem C5_resolved_networkId_is_documented :
  supported_keys = ["base"; "bsc"; "ethereum"; "polygon"] /\
  resolves_to "base" 8453 /\
  resolves_to "bsc" 56 /\
  resolves_to "ethereum" 1 /\
  resolves_to "polygon" 137 /\
  (forall key, key ∈ supported_keys ->
     exists id, documented_networkId key = Some id /\ resolves_to key id).
Proof.
  split; [reflexivity|].
  assert (Hbase : resolves_to "base" 8453) by (by eexists).
  assert (Hbsc : resolves_to "bsc" 56) by (by eexists).
  assert (Heth : resolves_to "ethereum" 1) by (by eexists).
  assert (Hpoly : resolves_to "polygon" 137) by (by eexists).
  repeat split; try assumption.
  apply supported_keys_cases; eexists; (split; [reflexivity|assumption]).
Qed.

Lemma C5_witness :
  "bsc" ∈ supported_keys /\
  exists id, documented_networkId "bsc" = Some id /\ resolves_to "bsc" id.
Proof.
  assert (H : "bsc" ∈ supported_keys) by repeat constructor.
  split; [exact H|].
  exact (proj2 (proj2 (proj2 (proj2 (proj2
           C5_resolved_networkId_is_documented)))) "bsc" H).
Defined.

(** ** The transformer *)

Lemma sample_transformed :
  transformCoinGeckoData (VArr (map coin_value sample_records))
                         (config_value base_config) = Ok sample_tokens.
Proof. reflexivity. Qed.

(** The loop on records of the data model, whatever the platform slug. *)
Lemma transform_loop_records cfg records :
  transform_loop (map coin_value records) (config_value cfg) [] =
  Ok (omap (fun r =>
              if truthy (address_read (platformSlug cfg) r)
              then Some (VObj
                     [ ("chainId", VNum (networkId cfg));
                       ("address", address_read (platformSlug cfg) r);
                       ("name", match coin_name r with
                                | Some n => VStr n
                                | None => VUndef
                                end);
                       ("symbol", VStr (match coin_symbol r with
                                        | Some s => toUpperCase s
                                        | None => ""
                                        end));
                       ("decimals", VNum (decimals cfg));
                       ("logoURI", VStr "") ])
              else None)
           records).
Proof.
  induction records as [|r records IH]; [done|].
  change (map coin_value (r :: records))
    with (coin_value r :: map coin_value records).
  rewrite transform_loop_cons, lookup_address_record. simpl bind.
  rewrite make_token_record, IH. csimpl.
  by destruct (truthy (address_read (platformSlug cfg) r)).
Qed.




(** With three records of which two carry an address, the result is those
    two, in order. *)
Example three_records_two_tokens :
  map token_value (spec_transform base_config sample_records) = sample_tokens.
Proof. reflexivity. Qed.

(** The condition on the slug cannot be dropped: with the slug
    [constructor], which no key of the table resolves to, a record that is
    listed on no platform is kept, since the read finds [Object] up the
    prototype chain. *)
Lemma inherited_slug_keeps_unlisted_record :
  contract_address "constructor" unlisted_record = None /\
  exists token,
    transformCoinGeckoData (VArr [coin_value unlisted_record])
                           (config_value inherited_slug_config) = Ok [token] /\
    token_field "address" token = Some (VNative (NativeFn "Object")).
Proof. split; [reflexivity|]. eexists. split; reflexivity. Qed.





(** C10: a record that carries an address but has no name still yields a
    token; its name is undefined, while a missing symbol becomes the empty
    string. *)
Theorem C10_token_without_name cfg r a :
  coin_name r = None ->
  contract_address (platformSlug cfg) r = Some a ->
  exists props,
    transformCoinGeckoData (VArr [coin_value r]) (config_value cfg) =
      Ok [VObj props] /\
    own "address" props = Some (VStr a) /\
    own "name" props = Some VUndef /\
    (coin_symbol r = None -> own "symbol" props = Some (VStr "")).
Proof.
  intros Hname Ha. apply address_read_carried in Ha as [Hread Ht].
  change [coin_value r] with (map coin_value [r]).
  unfold transformCoinGeckoData, iterate, bind at 1.
  rewrite (transform_loop_records cfg [r]). csimpl.
  rewrite Hread, Ht, Hname. eexists. split; [reflexivity|].
  repeat split. by intros ->.
Qed.

Lemma C10_witness :
  exists props,
    transformCoinGeckoData (VArr [coin_value nameless_record])
                           (config_value base_config) = Ok [VObj props] /\
    own "address" props = Some (VStr "0xabc123") /\
    own "name" props = Some VUndef /\
    (coin_symbol nameless_record = None -> own "symbol" props = Some (VStr "")).
Proof.
  exact (C10_token_without_name base_config nameless_record "0xabc123"
           eq_refl eq_refl).
Defined.

(** ** Runs of the script *)

Lemma createTokenListBase_envelope w chainCfg :
  createTokenListBase w chainCfg =
  let* name := get_prop chainCfg "name" in
  Ok (envelope name (chainKey w) (date_first w) []).
Proof. reflexivity. Qed.

Lemma envelope_filled name key t1 t2 tokens :
  set_prop (set_prop (envelope name key t1 []) "timestamp" (VStr t2))
           "tokens" (VArr tokens) =
  envelope name key t2 tokens.
Proof. reflexivity. Qed.

Lemma envelope_text name key timestamp tokens :
  exists text, JSON_stringify (envelope name key timestamp tokens) = Some text.
Proof. by eexists. Qed.

Lemma own_unlisted k props :
  k ∉ map fst props -> own k props = None.
Proof.
  induction props as [|[k' v] props IH]; simpl; [done|].
  intros H. apply not_elem_of_cons in H as [Hne H].
  destruct (String.eqb_spec k k'); [done|]. by apply IH.
Qed.

(** A key that is neither in the table nor inherited is refused: the error
    line is printed, the status is 1 and no file is written. *)
Lemma unknown_key_refused w :
  chainKey w ∉ supported_keys ->
  mem (chainKey w) object_prototype_names = false ->
  main w = Some {| process := {| stderr := [unsupported_line (chainKey w)];
                                 stdout := [];
                                 disk := files w |};
                   exit_code := 1 |}.
Proof.
  intros Hkey Hmem. unfold main, CHAIN_CONFIG, get_prop.
  rewrite own_unlisted by exact Hkey. by rewrite inherited_absent.
Qed.

(** C3 fails on the code: [constructor] is not a supported key, yet the
    guard of line 59 finds the inherited [Object] function, which is truthy;
    nothing is reported, a file [constructor-tokenlist.json] is written and
    the status is 0. *)
Theorem C3_inherited_key_passes_the_guard :
  (chainKey constructor_world ∉ supported_keys) /\
  exists text,
    main constructor_world =
    Some {| process :=
              {| stderr := [];
                 stdout := [done_line "constructor"];
                 disk := {[ "constructor-tokenlist.json" := text ]} |};
            exit_code := 0 |}.
Proof.
  split.
  - intros H.
    by apply (supported_keys_cases (fun key => key <> "constructor")) in H.
  - eexists. vm_compute. reflexivity.
Qed.

Lemma main_past_guard w chainCfg name platform slug :
  get_prop CHAIN_CONFIG (chainKey w) = Ok chainCfg ->
  truthy chainCfg = true ->
  get_prop chainCfg "name" = Ok name ->
  get_prop chainCfg "coingeckoPlatform" = Ok platform ->
  to_property_key platform = Ok slug ->
  main w = outcome_past_guard w chainCfg name slug.
Proof.
  intros Hcfg Htrue Hname Hplatform Hslug.
  unfold main, buildTokenList, outcome_past_guard.
  rewrite Hcfg, Htrue, createTokenListBase_envelope, Hname, Hplatform.
  simpl negb. cbv iota. simpl bind. cbv beta.
  unfold fetchTokensFromCoinGecko, fetched. rewrite Hslug.
  destruct (http_get w (coins_list_url slug)) as [data|message]; simpl fst;
    simpl snd.
  - destruct (transformCoinGeckoData data chainCfg) as [tokens|e|]; try done.
    rewrite envelope_filled.
    destruct (envelope_text name (chainKey w) (date_second w) tokens)
      as [text ->].
    unfold writeFileSync. by destruct (writable w _).
  - destruct (transformCoinGeckoData (VArr []) chainCfg) as [tokens|e|];
      try done.
    rewrite envelope_filled.
    destruct (envelope_text name (chainKey w) (date_second w) tokens)
      as [text ->].
    unfold writeFileSync. by destruct (writable w _).
Qed.

(** The characters of a string have no platforms: none becomes a token. *)
Lemma transform_loop_chars s chainCfg acc :
  transform_loop (chars s) chainCfg acc = Ok acc.
Proof. induction s as [|c s IH]; [done|]. exact IH. Qed.

(** C4, amended: when the request is rejected, the fetcher reports the
    failure and returns the empty array; the run then writes the file with
    an envelope whose tokens are empty and whose other fields are filled as
    usual, and ends with status 0.  A body that is no JSON text is not such
    a failure: it reaches the fetcher as a string, the fetcher reports
    nothing and returns the string; no character of it becomes a token, so
    the run writes the same file and ends with status 0. *)
Theorem C4_fetch_failure_still_writes w cfg p :
  get_prop CHAIN_CONFIG (chainKey w) = Ok (config_value cfg) ->
  writable w (output_file_name (chainKey w)) = true ->
  exists text,
    JSON_stringify
      (envelope (VStr (displayName cfg)) (chainKey w) (date_second w) []) =
      Some text /\
    (forall message,
       http_get w (coins_list_url (platformSlug cfg)) = Rejected message ->
       fetchTokensFromCoinGecko w (VStr (platformSlug cfg)) p =
         (Ok (VArr []), console_error (fetch_failure_line message) p) /\
       main w =
       Some {| process :=
                 {| stderr := [fetch_failure_line message];
                    stdout := [done_line (chainKey w)];
                    disk := <[output_file_name (chainKey w) := text]>
                              (files w) |};
               exit_code := 0 |}) /\
    (forall body,
       http_get w (coins_list_url (platformSlug cfg)) = Resolved (VStr body) ->
       fetchTokensFromCoinGecko w (VStr (platformSlug cfg)) p =
         (Ok (VStr body), p) /\
       main w =
       Some {| process :=
                 {| stderr := [];
                    stdout := [done_line (chainKey w)];
                    disk := <[output_file_name (chainKey w) := text]>
                              (files w) |};
               exit_code := 0 |}).
Proof.
  intros Hcfg Hwrite.
  destruct (envelope_text (VStr (displayName cfg)) (chainKey w)
              (date_second w) []) as [text Htext].
  exists text. split; [exact Htext|].
  pose proof (main_past_guard w (config_value cfg) (VStr (displayName cfg))
                (VStr (platformSlug cfg)) (platformSlug cfg)
                Hcfg eq_refl eq_refl eq_refl eq_refl) as Hmain.
  unfold outcome_past_guard, fetched in Hmain.
  split.
  - intros message Hget. split.
    + unfold fetchTokensFromCoinGecko. simpl. by rewrite Hget.
    + rewrite Hmain, Hget. simpl fst. simpl snd.
      change (transformCoinGeckoData (VArr []) (config_value cfg)) with
        (Ok (@nil value)).
      cbv beta iota. by rewrite Htext, Hwrite.
  - intros body Hget. split.
    + unfold fetchTokensFromCoinGecko. simpl. by rewrite Hget.
    + rewrite Hmain, Hget. simpl fst. simpl snd.
      unfold transformCoinGeckoData. simpl bind.
      rewrite transform_loop_chars. by rewrite Htext, Hwrite.
Qed.

Lemma C4_witness :
  exists text,
    JSON_stringify
      (envelope (VStr "Base Token List") "base" "2024-01-01T00:00:01.000Z" []) =
      Some text /\
    fetchTokensFromCoinGecko offline_world (VStr "base")
        {| stderr := []; stdout := []; disk := ∅ |} =
      (Ok (VArr []),
       console_error (fetch_failure_line "Network Error")
         {| stderr := []; stdout := []; disk := ∅ |}) /\
    main offline_world =
    Some {| process :=
              {| stderr := [fetch_failure_line "Network Error"];
                 stdout := [done_line "base"];
                 disk := <["base-tokenlist.json" := text]> ∅ |};
            exit_code := 0 |}.
Proof.
  destruct (C4_fetch_failure_still_writes offline_world base_config
              {| stderr := []; stdout := []; disk := ∅ |} eq_refl eq_refl)
    as (text & Htext & Hrejected & _).
  exists text. split; [exact Htext|].
  exact (Hrejected "Network Error" eq_refl).
Defined.

(** C4 as stated fails on a body that is no JSON text: the request is not
    rejected, the fetcher reports nothing and returns the body, not the
    empty array. *)
Lemma C4_counterexample :
  (exists e, JSON_parse error_page = Throw e) /\
  forall p,
    exists data,
      fetchTokensFromCoinGecko unparseable_world (VStr "base") p =
        (Ok data, p) /\
      data <> VArr [].
Proof.
  split; [by eexists|].
  intros p. exists (VStr error_page). by split.
Qed.

Lemma main_truthy w chainCfg :
  get_prop CHAIN_CONFIG (chainKey w) = Ok chainCfg ->
  truthy chainCfg = true ->
  main w =
  match config_reads chainCfg with
  | Ok (name, slug) => outcome_past_guard w chainCfg name slug
  | Throw e =>
      Some {| process := {| stderr := [error_message e]; stdout := [];
                            disk := files w |};
              exit_code := 1 |}
  | NotModelled => None
  end.
Proof.
  intros Hcfg Htrue. unfold config_reads.
  destruct (get_prop chainCfg "name") as [name|e|] eqn:Hname; simpl bind;
    [|unfold main, buildTokenList, createTokenListBase;
      by rewrite Hcfg, Htrue, Hname..].
  destruct (get_prop chainCfg "coingeckoPlatform") as [platform|e|] eqn:Hpf;
    simpl bind;
    [|unfold main, buildTokenList, createTokenListBase;
      by rewrite Hcfg, Htrue, Hname, Hpf..].
  destruct (to_property_key platform) as [slug|e|] eqn:Hslug; simpl bind;
    [by apply main_past_guard with (platform := platform)
    |unfold main, buildTokenList, createTokenListBase, fetchTokensFromCoinGecko;
     by rewrite Hcfg, Htrue, Hname, Hpf, Hslug..].
Qed.

(** C7: two runs with the same network key and the same upstream data end
    alike, and the files they write are the texts of two envelopes with the
    same name, keywords, version and tokens, which differ only in the
    timestamp. *)
Theorem C7_deterministic_up_to_timestamp w1 w2 :
  same_inputs w1 w2 ->
  match main w1, main w2 with
  | Some o1, Some o2 => same_up_to_timestamp w1 w2 o1 o2
  | None, None => True
  | _, _ => False
  end.
Proof.
  intros (Hargv & Hhttp & Hwrite).
  assert (Hkey : chainKey w2 = chainKey w1) by (unfold chainKey; by rewrite Hargv).
  destruct (get_prop CHAIN_CONFIG (chainKey w1)) as [chainCfg|e|] eqn:Hcfg;
    [|unfold main; by rewrite Hkey, Hcfg..].
  destruct (truthy chainCfg) eqn:Htrue.
  - rewrite (main_truthy w1 chainCfg), (main_truthy w2 chainCfg)
      by (done || by rewrite Hkey).
    destruct (config_reads chainCfg) as [[name slug]|e|];
      [|by repeat split; try left..|done].
    unfold outcome_past_guard, fetched. rewrite Hkey, <- Hhttp, <- Hwrite.
    destruct (transformCoinGeckoData _ chainCfg) as [tokens|e|];
      [|by repeat split; try left|done].
    destruct (envelope_text name (chainKey w1) (date_second w1) tokens)
      as [text1 Htext1].
    destruct (envelope_text name (chainKey w1) (date_second w2) tokens)
      as [text2 Htext2].
    rewrite Htext1, Htext2.
    destruct (writable w1 _); [|by repeat split; try left].
    repeat split. right.
    by exists (output_file_name (chainKey w1)), name, (chainKey w1), tokens,
              text1, text2.
  - unfold main. rewrite Hkey, Hcfg, Htrue. simpl. by repeat split; try left.
Qed.

Lemma C7_witness :
  match main offline_world, main later_world with
  | Some o1, Some o2 => same_up_to_timestamp offline_world later_world o1 o2
  | None, None => True
  | _, _ => False
  end.
Proof.
  apply (C7_deterministic_up_to_timestamp offline_world later_world).
  by repeat split.
Defined.

(** ** Strings *)

Lemma append_cons c s r : String c s +:+ r = String c (s +:+ r).
Proof. reflexivity. Qed.

Lemma append_empty_l s : EmptyString +:+ s = s.
Proof. reflexivity. Qed.

Lemma append_empty_r s : s +:+ EmptyString = s.
Proof. induction s as [|c s IH]; [done|]. by rewrite append_cons, IH. Qed.

Lemma append_assoc a b c : (a +:+ b) +:+ c = a +:+ (b +:+ c).
Proof. induction a as [|x a IH]; [done|]. by rewrite !append_cons, IH. Qed.

Lemma blank_append a b : blank a = true -> blank b = true -> blank (a +:+ b) = true.
Proof.
  induction a as [|c a IH]; [done|]. rewrite append_cons. simpl.
  intros [-> Ha]%andb_true_iff Hb. by rewrite IH.
Qed.

(** ** The scanner on the text of [serialize] *)

Lemma prefix_app a b r : prefix (a ++ b) r = prefix a (prefix b r).
Proof.
  destruct a as [|x a]; [done|]. destruct b as [|y b].
  - by rewrite List.app_nil_r.
  - destruct r; simpl; try done. by rewrite <- List.app_assoc.
Qed.

Lemma prefix_cons t ts r : prefix (t :: ts) r = prefix [t] (prefix ts r).
Proof. apply (prefix_app [t] ts). Qed.

Lemma lex_blank s rest :
  blank s = true -> lex_from LStart (s +:+ rest) = lex_from LStart rest.
Proof.
  induction s as [|c s IH]; [done|].
  intros H. simpl in H. apply andb_true_iff in H as [Hc Hs].
  rewrite append_cons. cbn [lex_from step].
  unfold start_step, is_ws. apply N.eqb_eq in Hc. rewrite Hc. simpl.
  by apply IH.
Qed.

Lemma lex_quote_char c acc rest :
  lex_from (LString acc) (quote_char c +:+ rest) =
  lex_from (LString (push_char acc c)) rest.
Proof.
  destruct c as [[] [] [] [] [] [] [] []]; reflexivity.
Qed.

Lemma lex_quote_body s acc rest :
  lex_from (LString acc) (quote_body s +:+ String dquote rest) =
  prefix [TString (acc +:+ s)] (lex_from LStart rest).
Proof.
  revert acc. induction s as [|c s IH]; intros acc.
  - by rewrite append_empty_r.
  - simpl quote_body. rewrite append_assoc, lex_quote_char, IH.
    unfold push_char. by rewrite append_assoc.
Qed.

Lemma lex_quote s rest :
  lex_from LStart (quote s +:+ rest) =
  prefix [TString s] (lex_from LStart rest).
Proof.
  unfold quote. rewrite append_cons, append_assoc.
  change (String dquote "" +:+ rest) with (String dquote rest).
  change (lex_from LStart (String dquote ?x)) with (lex_from (LString "") x).
  by rewrite lex_quote_body.
Qed.

Lemma pos_to_uint_normal p : Decimal.unorm (Pos.to_uint p) = Pos.to_uint p.
Proof.
  rewrite <- DecimalPos.Unsigned.to_of.
  by rewrite DecimalPos.Unsigned.of_to.
Qed.

Lemma pos_to_uint_head p d : Pos.to_uint p <> Decimal.D0 d.
Proof.
  intros H. pose proof (pos_to_uint_normal p) as Hn. rewrite H in Hn.
  rewrite DecimalFacts.unorm_D0 in Hn. unfold Decimal.unorm in Hn.
  destruct (Decimal.nzhead d) eqn:Hd;
    try (by apply (DecimalFacts.nzhead_nonzero d d); rewrite Hd).
  injection Hn as <-. by apply (DecimalPos.Unsigned.to_uint_nonzero p).
Qed.

Lemma step_number_digit negative digits c d :
  digit_of c = Some d -> digits <> Decimal.D0 Decimal.Nil ->
  step (LNumber negative digits) c = Ok ([], LNumber negative (d digits)).
Proof.
  intros Hc Hzero. unfold step. rewrite Hc.
  by destruct digits as [|[]| | | | | | | | |].
Qed.

Lemma lex_digits d negative digits rest :
  digits <> Decimal.Nil -> digits <> Decimal.D0 Decimal.Nil ->
  lex_from (LNumber negative digits)
           (DecimalString.NilEmpty.string_of_uint d +:+ rest) =
  lex_from (LNumber negative (Decimal.revapp d digits)) rest.
Proof.
  revert digits.
  induction d as [|d IH|d IH|d IH|d IH|d IH|d IH|d IH|d IH|d IH|d IH];
    intros digits Hnil Hzero; [done|..];
    simpl DecimalString.NilEmpty.string_of_uint; rewrite append_cons;
    cbn [lex_from];
    erewrite step_number_digit by (reflexivity || done);
    cbn [prefix];
    (rewrite IH; [done|done|intros [= ->]; by apply Hnil]).
Qed.

Lemma lex_number_end negative digits rest :
  sep_or_end rest ->
  lex_from (LNumber negative digits) rest =
  prefix [TNumber (number_value negative digits)] (lex_from LStart rest).
Proof.
  destruct rest as [|c rest]; [done|]. intros [->| ->]; cbn [lex_from].
  - change (step (LNumber negative digits) ",")
      with (Ok ([TNumber (number_value negative digits); TComma], LStart)).
    change (step LStart ",") with (Ok ([TComma], LStart)).
    cbv beta iota. unfold prefix. by destruct (lex_from LStart rest).
  - change (step (LNumber negative digits) newline)
      with (Ok ([TNumber (number_value negative digits)], LStart)).
    change (step LStart newline) with (Ok (@nil jtoken, LStart)).
    cbv beta iota. unfold prefix. by destruct (lex_from LStart rest).
Qed.

Lemma number_value_rev negative d :
  number_value negative (Decimal.rev d) =
  Z.of_int (if negative then Decimal.Neg d else Decimal.Pos d).
Proof. unfold number_value. by rewrite DecimalFacts.rev_rev. Qed.

(** The digits of a positive number, scanned after their first one. *)
Lemma lex_pos_digits p negative rest st :
  sep_or_end rest ->
  (forall c d more, digit_of c = Some d ->
     lex_from st (String c more) =
     lex_from (LNumber negative (d Decimal.Nil)) more) ->
  lex_from st
    (DecimalString.NilEmpty.string_of_uint (Pos.to_uint p) +:+ rest) =
  prefix [TNumber (Z.of_int (if negative then Decimal.Neg (Pos.to_uint p)
                             else Decimal.Pos (Pos.to_uint p)))]
         (lex_from LStart rest).
Proof.
  intros Hrest Hst.
  pose proof (DecimalPos.Unsigned.to_uint_nonnil p) as Hnil.
  pose proof (pos_to_uint_head p) as Hhead.
  rewrite <- number_value_rev.
  destruct (Pos.to_uint p) as [|d|d|d|d|d|d|d|d|d|d];
    [done|by destruct (Hhead d)|..];
    simpl DecimalString.NilEmpty.string_of_uint; rewrite append_cons;
    erewrite Hst by reflexivity;
    rewrite lex_digits by done; by rewrite lex_number_end.
Qed.

Lemma lex_number n : lexes (number_to_string n) [TNumber n].
Proof.
  intros rest Hrest. rewrite <- (DecimalZ.of_to n) at 2.
  unfold number_to_string. destruct n as [|p|p]; simpl Z.to_int.
  - simpl DecimalString.NilZero.string_of_int. rewrite append_cons.
    cbn [lex_from].
    change (step LStart "0")
      with (Ok (@nil jtoken, LNumber false (Decimal.D0 Decimal.Nil))).
    cbn [prefix]. by rewrite lex_number_end.
  - simpl DecimalString.NilZero.string_of_int.
    unfold DecimalString.NilZero.string_of_uint.
    pose proof (DecimalPos.Unsigned.to_uint_nonnil p) as Hnil.
    replace (match Pos.to_uint p with
             | Decimal.Nil => "0"
             | _ => DecimalString.NilEmpty.string_of_uint (Pos.to_uint p)
             end)
      with (DecimalString.NilEmpty.string_of_uint (Pos.to_uint p))
      by (by destruct (Pos.to_uint p)).
    apply (lex_pos_digits p false); [done|].
    intros c d more Hc. cbn [lex_from].
    by destruct c as [[] [] [] [] [] [] [] []]; try done; injection Hc as <-.
  - simpl DecimalString.NilZero.string_of_int.
    unfold DecimalString.NilZero.string_of_uint.
    pose proof (DecimalPos.Unsigned.to_uint_nonnil p) as Hnil.
    replace (match Pos.to_uint p with
             | Decimal.Nil => "0"
             | _ => DecimalString.NilEmpty.string_of_uint (Pos.to_uint p)
             end)
      with (DecimalString.NilEmpty.string_of_uint (Pos.to_uint p))
      by (by destruct (Pos.to_uint p)).
    rewrite append_cons.
    change (lex_from LStart (String "-" ?x)) with (lex_from LMinus x).
    apply (lex_pos_digits p true); [done|].
    intros c d more Hc. cbn [lex_from step]. by rewrite Hc.
Qed.

Lemma lexes_null : lexes "null" [TNull].
Proof. intros rest _. reflexivity. Qed.

Lemma lexes_true : lexes "true" [TTrue].
Proof. intros rest _. reflexivity. Qed.

Lemma lexes_false : lexes "false" [TFalse].
Proof. intros rest _. reflexivity. Qed.

Lemma lexes_quote s : lexes (quote s) [TString s].
Proof. intros rest _. apply lex_quote. Qed.

Lemma lexes_member k text ts :
  lexes text ts ->
  lexes (quote k +:+ ": " +:+ text) (TString k :: TColon :: ts).
Proof.
  intros H rest Hrest. rewrite append_assoc, lex_quote.
  rewrite (prefix_cons (TString k) (TColon :: ts)). f_equal.
  rewrite append_assoc.
  change (lex_from LStart (": " +:+ ?x)) with (prefix [TColon] (lex_from LStart x)).
  by rewrite (prefix_cons TColon ts), H.
Qed.

Lemma lexes_join inner parts toks :
  blank inner = true ->
  Forall2 lexes parts toks ->
  parts <> [] ->
  lexes (join (String "," (String newline inner)) parts) (join_tokens toks).
Proof.
  intros Hinner H. induction H as [|text ts parts toks Hx Hrest IH]; [done|].
  intros _ rest Hsep. destruct Hrest as [|text' ts' parts toks Hy Hrest].
  - by apply Hx.
  - change (join ?sep (text :: text' :: parts))
      with (text +:+ sep +:+ join sep (text' :: parts)).
    change (join_tokens (ts :: ts' :: toks))
      with (ts ++ TComma :: join_tokens (ts' :: toks)).
    rewrite !append_assoc, Hx by (by left).
    rewrite !append_cons.
    change (lex_from LStart (String "," (String newline ?x)))
      with (prefix [TComma] (lex_from LStart x)).
    rewrite lex_blank by done. rewrite IH by done.
    by rewrite prefix_app, (prefix_cons TComma (join_tokens (ts' :: toks))).
Qed.

Lemma enclose_nonempty o c indent text parts rest :
  enclose (String o EmptyString) (String c EmptyString) indent (text :: parts)
    +:+ rest =
  String o (String newline
    ((indent +:+ gap) +:+
     (join (String "," (String newline (indent +:+ gap))) (text :: parts) +:+
      String newline (indent +:+ String c rest)))).
Proof.
  unfold enclose.
  change ("," +:+ nl +:+ indent +:+ gap)
    with (String "," (String newline (indent +:+ gap))).
  generalize (join (String "," (String newline (indent +:+ gap)))
                (text :: parts)).
  intros joined. unfold nl.
  by repeat first [rewrite append_assoc | rewrite append_cons
                  | rewrite append_empty_l].
Qed.

Lemma lexes_enclose o c topen tclose indent parts toks :
  (forall rest, lex_from LStart (String o rest) =
                prefix [topen] (lex_from LStart rest)) ->
  (forall rest, lex_from LStart (String c rest) =
                prefix [tclose] (lex_from LStart rest)) ->
  blank indent = true ->
  Forall2 lexes parts toks ->
  lexes (enclose (String o EmptyString) (String c EmptyString) indent parts)
        (topen :: join_tokens toks ++ [tclose]).
Proof.
  intros Ho Hc Hindent H rest Hrest.
  destruct H as [|text ts parts toks Hx Hparts].
  - change (lex_from LStart (String o (String c rest)) =
            prefix [topen; tclose] (lex_from LStart rest)).
    by rewrite Ho, Hc, (prefix_cons topen [tclose]).
  - assert (Hinner : blank (indent +:+ gap) = true) by by apply blank_append.
    rewrite enclose_nonempty.
    rewrite Ho, (prefix_cons topen (join_tokens (ts :: toks) ++ [tclose])).
    f_equal.
    change (lex_from LStart (String newline ?x)) with (lex_from LStart x).
    rewrite lex_blank by done.
    rewrite (lexes_join (indent +:+ gap) (text :: parts) (ts :: toks))
      by (done || by constructor || by right).
    rewrite prefix_app. f_equal.
    change (lex_from LStart (String newline ?x)) with (lex_from LStart x).
    rewrite lex_blank by done. apply Hc.
Qed.

Lemma serialize_array indent elems :
  serialize indent (VArr elems) =
  Some (enclose "[" "]" indent
          (map (fun x => default "null" (serialize (indent +:+ gap) x)) elems)).
Proof. reflexivity. Qed.

Lemma serialize_object indent props :
  serialize indent (VObj props) =
  Some (enclose "{" "}" indent
          (omap (fun kx =>
                   option_map (fun str => quote (fst kx) +:+ ": " +:+ str)
                              (serialize (indent +:+ gap) (snd kx)))
                props)).
Proof. reflexivity. Qed.

(** The text of a JSON value scans to its tokens. *)
Lemma serialize_lexes v :
  json v = true ->
  forall indent, blank indent = true ->
  exists text, serialize indent v = Some text /\ lexes text (tokens_of v).
Proof.
  induction v as [| |b|n|s|elems IH|props IH|b] using value_induction;
    intros Hjson indent Hindent; try discriminate Hjson.
  - exists "null". split; [done|apply lexes_null].
  - destruct b; eexists; (split; [reflexivity|]);
      [apply lexes_true|apply lexes_false].
  - eexists. split; [reflexivity|apply lex_number].
  - eexists. split; [reflexivity|apply lexes_quote].
  - rewrite serialize_array. eexists. split; [reflexivity|].
    change (tokens_of (VArr elems))
      with (TLBracket :: join_tokens (map tokens_of elems) ++ [TRBracket]).
    apply lexes_enclose; [done|done|done|].
    assert (Hinner : blank (indent +:+ gap) = true) by by apply blank_append.
    simpl in Hjson. induction IH as [|x elems Hx _ IHelems]; [constructor|].
    simpl in Hjson. apply andb_true_iff in Hjson as [Hjx Hjs].
    destruct (Hx Hjx _ Hinner) as (text & Htext & Hlex).
    simpl map. rewrite Htext. constructor; [exact Hlex|by apply IHelems].
  - rewrite serialize_object. eexists. split; [reflexivity|].
    change (tokens_of (VObj props))
      with (TLBrace
              :: join_tokens
                   (map (fun kx => TString (fst kx) :: TColon :: tokens_of (snd kx))
                        props)
              ++ [TRBrace]).
    apply lexes_enclose; [done|done|done|].
    assert (Hinner : blank (indent +:+ gap) = true) by by apply blank_append.
    simpl in Hjson. apply andb_true_iff in Hjson as [_ Hjson].
    induction IH as [|[k x] props Hx _ IHprops]; [constructor|].
    simpl in Hjson. apply andb_true_iff in Hjson as [Hjx Hjs].
    destruct (Hx Hjx _ Hinner) as (text & Htext & Hlex).
    csimpl. simpl in Htext. rewrite Htext. simpl option_map. cbv iota.
    constructor; [by apply lexes_member|by apply IHprops].
Qed.

(** ** The parser on the tokens of a value *)

Lemma first_element v stack rest :
  json v = true ->
  parse_from (PFirstElement stack) (tokens_of v ++ rest) =
  parse_from (PValue (FArray [] :: stack)) (tokens_of v ++ rest).
Proof. destruct v as [| |[]| | | | |]; by try discriminate. Qed.

Lemma join_tokens_cons ts parts rest :
  join_tokens (ts :: parts) ++ rest =
  ts ++ match parts with
        | [] => rest
        | _ => TComma :: join_tokens parts ++ rest
        end.
Proof.
  destruct parts as [|ts' parts]; [done|].
  change (join_tokens (ts :: ts' :: parts))
    with (ts ++ TComma :: join_tokens (ts' :: parts)).
  by rewrite <- List.app_assoc.
Qed.

Lemma set_own_fresh k v props :
  mem k (map fst props) = false -> set_own k v props = props ++ [(k, v)].
Proof.
  induction props as [|[k' x] props IH]; [done|]. simpl.
  intros [Hk Hrest]%orb_false_iff. rewrite Hk. by rewrite IH.
Qed.

Lemma distinct_middle l1 k l2 :
  distinct (l1 ++ k :: l2) = true -> mem k l1 = false.
Proof.
  induction l1 as [|x l1 IH]; [done|]. simpl.
  intros [Hx Hrest]%andb_true_iff. rewrite (IH Hrest), orb_false_r.
  apply negb_true_iff in Hx. unfold mem in Hx. rewrite existsb_app in Hx.
  apply orb_false_iff in Hx as [_ Hx]. simpl in Hx.
  apply orb_false_iff in Hx as [Hx _]. by rewrite String.eqb_sym.
Qed.

Lemma parse_elements elems x acc stack rest :
  parses x -> Forall parses elems ->
  parse_from (PValue (FArray acc :: stack))
             (join_tokens (map tokens_of (x :: elems)) ++ TRBracket :: rest) =
  parse_from (PAfter (VArr (acc ++ x :: elems)) stack) rest.
Proof.
  intros Hx Helems. revert x acc Hx.
  induction Helems as [|y elems Hy _ IH]; intros x acc Hx.
  - simpl. by rewrite Hx.
  - change (map tokens_of (x :: y :: elems))
      with (tokens_of x :: map tokens_of (y :: elems)).
    rewrite join_tokens_cons, Hx. simpl map. cbv iota.
    change (parse_from (PAfter x (FArray acc :: stack)) (TComma :: ?ts))
      with (parse_from (PValue (FArray (acc ++ [x]) :: stack)) ts).
    specialize (IH y (acc ++ [x]) Hy). simpl map in IH. rewrite IH.
    by rewrite <- List.app_assoc.
Qed.

Lemma parse_members props k x acc stack rest :
  parses x -> Forall (fun kx => parses (snd kx)) props ->
  forallb (fun key => negb (array_index_key key))
          (map fst ((k, x) :: props)) = true ->
  distinct (map fst (acc ++ (k, x) :: props)) = true ->
  parse_from (PKey acc stack)
    (join_tokens
       (map (fun kx => TString (fst kx) :: TColon :: tokens_of (snd kx))
            ((k, x) :: props))
     ++ TRBrace :: rest) =
  parse_from (PAfter (VObj (acc ++ (k, x) :: props)) stack) rest.
Proof.
  intros Hx Hprops. revert k x acc Hx.
  induction Hprops as [|[k' y] props Hy _ IH]; intros k x acc Hx Hindex Hkeys.
  - simpl in Hindex. apply andb_true_iff in Hindex as [Hk _].
    apply negb_true_iff in Hk.
    rewrite map_app in Hkeys. apply distinct_middle in Hkeys.
    simpl. rewrite Hx. simpl. unfold define_prop. rewrite Hk.
    by rewrite set_own_fresh.
  - simpl in Hindex. apply andb_true_iff in Hindex as [Hk Hindex].
    apply negb_true_iff in Hk.
    pose proof Hkeys as Hfresh. rewrite map_app in Hfresh.
    apply distinct_middle in Hfresh.
    change (map ?f ((k, x) :: (k', y) :: props))
      with (f (k, x) :: map f ((k', y) :: props)).
    rewrite join_tokens_cons. cbn [fst snd].
    change (parse_from (PKey acc stack)
              ((TString k :: TColon :: tokens_of x) ++ ?ts))
      with (parse_from (PValue (FObject acc k :: stack)) (tokens_of x ++ ts)).
    rewrite Hx. cbn [map parse_from parse_step]. unfold define_prop.
    rewrite Hk, set_own_fresh by done.
    pose proof (IH k' y (acc ++ [(k, x)]) Hy Hindex) as IH'.
    rewrite <- List.app_assoc in IH'. specialize (IH' Hkeys).
    cbn [map] in IH'. by rewrite IH'.
Qed.

Lemma parse_tokens_of v : json v = true -> parses v.
Proof.
  induction v as [| |b|n|s|elems IH|props IH|b] using value_induction;
    intros Hjson; try discriminate Hjson; try (by intros stack rest).
  - by destruct b.
  - intros stack rest. simpl in Hjson.
    assert (Hall : Forall parses elems).
    { induction IH as [|x elems Hx _ IHelems]; [constructor|].
      simpl in Hjson. apply andb_true_iff in Hjson as [Hjx Hjs].
      constructor; [by apply Hx|by apply IHelems]. }
    destruct elems as [|x elems]; [done|].
    change (tokens_of (VArr (x :: elems)))
      with (TLBracket
              :: join_tokens (map tokens_of (x :: elems)) ++ [TRBracket]).
    cbn [app]. rewrite <- List.app_assoc.
    change (parse_from (PValue stack) (TLBracket :: ?ts))
      with (parse_from (PFirstElement stack) ts).
    apply Forall_cons in Hall as [Hx Hall].
    simpl in Hjson. apply andb_true_iff in Hjson as [Hjx _].
    change (map tokens_of (x :: elems))
      with (tokens_of x :: map tokens_of elems).
    rewrite join_tokens_cons, first_element, <- join_tokens_cons by done.
    by apply (parse_elements elems x []).
  - intros stack rest. simpl in Hjson.
    apply andb_true_iff in Hjson as [[Hkeys Hindex]%andb_true_iff Hjson].
    assert (Hall : Forall (fun kx => parses (snd kx)) props).
    { clear Hkeys Hindex.
      induction IH as [|[k x] props Hx _ IHprops]; [constructor|].
      simpl in Hjson. apply andb_true_iff in Hjson as [Hjx Hjs].
      constructor; [by apply Hx|by apply IHprops]. }
    destruct props as [|[k x] props]; [done|].
    apply Forall_cons in Hall as [Hx Hall].
    change (tokens_of (VObj ((k, x) :: props)))
      with (TLBrace
              :: join_tokens
                   (map (fun kx => TString (fst kx) :: TColon :: tokens_of (snd kx))
                        ((k, x) :: props))
              ++ [TRBrace]).
    cbn [app]. rewrite <- List.app_assoc.
    change (parse_from (PValue stack) (TLBrace :: ?ts))
      with (parse_from (PFirstKey stack) ts).
    transitivity
      (parse_from (PKey [] stack)
         (join_tokens
            (map (fun kx => TString (fst kx) :: TColon :: tokens_of (snd kx))
                 ((k, x) :: props))
          ++ [TRBrace] ++ rest)).
    { change (map ?f ((k, x) :: props)) with (f (k, x) :: map f props).
      by rewrite join_tokens_cons. }
    by apply (parse_members props k x []).
Qed.

(** ** Round trip through the text *)

Lemma serialize_image v :
  forall indent,
    serialize indent v =
    match json_image v with
    | Some j => serialize indent j
    | None => None
    end.
Proof.
  induction v as [| |b|n|s|elems IH|props IH|[[]|f]] using value_induction;
    intros indent; try reflexivity.
  - rewrite serialize_array. cbn [json_image]. rewrite serialize_array.
    do 2 f_equal. rewrite List.map_map.
    induction IH as [|x elems Hx _ IHelems]; [done|].
    simpl. rewrite IHelems. f_equal. rewrite Hx.
    by destruct (json_image x).
  - rewrite serialize_object. cbn [json_image]. rewrite serialize_object.
    do 2 f_equal.
    induction IH as [|[k x] props Hx _ IHprops]; [done|].
    csimpl. rewrite IHprops. simpl in Hx. rewrite Hx.
    destruct (json_image x) as [j|]; [|done]. csimpl.
    by destruct (serialize (indent +:+ gap) j).
Qed.

Lemma mem_kept k (props : list (string * value)) :
  mem k (map fst props) = false ->
  mem k (map fst (omap (fun kx => option_map (pair (fst kx))
                                             (json_image (snd kx)))
                       props)) = false.
Proof.
  induction props as [|[k' x] props IH]; [done|]. simpl.
  intros [Hk Hrest]%orb_false_iff. csimpl.
  destruct (json_image x); csimpl; [|by apply IH].
  by rewrite Hk, IH.
Qed.

Lemma json_image_json v :
  well_keyed v = true ->
  forall j, json_image v = Some j -> json j = true.
Proof.
  induction v as [| |b|n|s|elems IH|props IH|[[]|f]] using value_induction;
    intros Hwk j Hj; try (by injection Hj as <-); try discriminate Hj.
  - injection Hj as <-. simpl in Hwk. simpl.
    induction IH as [|x elems Hx _ IHelems]; [done|].
    simpl in Hwk. apply andb_true_iff in Hwk as [Hwx Hws].
    simpl. rewrite IHelems by done. rewrite andb_true_r.
    destruct (json_image x) as [jx|] eqn:Hjx; [|done]. by apply Hx.
  - injection Hj as <-. simpl in Hwk.
    apply andb_true_iff in Hwk as [[Hkeys Hindex]%andb_true_iff Hwk].
    cbn [json]. rewrite !andb_true_iff. repeat split.
    + clear IH Hindex Hwk. induction props as [|[k x] props IHprops]; [done|].
      simpl in Hkeys. apply andb_true_iff in Hkeys as [Hk Hkeys].
      apply negb_true_iff in Hk. csimpl.
      destruct (json_image x); csimpl; [|by apply IHprops].
      by rewrite mem_kept, IHprops.
    + clear IH Hkeys Hwk. induction props as [|[k x] props IHprops]; [done|].
      simpl in Hindex. apply andb_true_iff in Hindex as [Hk Hindex]. csimpl.
      destruct (json_image x); csimpl; [|by apply IHprops].
      by rewrite Hk, IHprops.
    + clear Hkeys Hindex. induction IH as [|[k x] props Hx _ IHprops]; [done|].
      simpl in Hwk. apply andb_true_iff in Hwk as [Hwx Hws]. csimpl.
      destruct (json_image x) as [jx|] eqn:Hjx; csimpl; [|by apply IHprops].
      rewrite IHprops by done. rewrite andb_true_r. by apply Hx.
Qed.


(** Parsing the text of a JSON value gives the value back. *)
Lemma parse_stringify_json v text :
  json v = true -> JSON_stringify v = Some text -> JSON_parse text = Ok v.
Proof.
  intros Hjson Htext.
  destruct (serialize_lexes v Hjson "" eq_refl) as (text' & Htext' & Hlex).
  unfold JSON_stringify in Htext. rewrite Htext in Htext'.
  injection Htext' as <-. unfold JSON_parse.
  specialize (Hlex "" I). rewrite append_empty_r in Hlex. rewrite Hlex.
  replace (prefix (tokens_of v) (lex_from LStart ""))
    with (Ok (tokens_of v))
    by (destruct (tokens_of v); [done|]; simpl; by rewrite List.app_nil_r).
  simpl bind. rewrite <- (List.app_nil_r (tokens_of v)).
  by rewrite (parse_tokens_of v Hjson [] []).
Qed.

(** Parsing the text of any value with well-built objects gives what the
    text keeps of it. *)
Lemma parse_stringify v text :
  well_keyed v = true -> JSON_stringify v = Some text ->
  exists j, json_image v = Some j /\ JSON_parse text = Ok j.
Proof.
  intros Hwk Htext. unfold JSON_stringify in Htext.
  rewrite serialize_image in Htext.
  destruct (json_image v) as [j|] eqn:Hj; [|done].
  exists j. split; [done|].
  apply parse_stringify_json; [|done]. by apply (json_image_json v).
Qed.

(** ** Well-built objects through the transformer *)

Lemma well_keyed_inherited c k : well_keyed (inherited c k) = true.
Proof.
  unfold inherited. destruct (String.eqb k "__proto__"); [done|].
  destruct (mem k (prototype_names c)); [done|].
  by destruct (mem k object_prototype_names).
Qed.

Lemma well_keyed_nth elems i :
  forallb well_keyed elems = true -> well_keyed (nth i elems VUndef) = true.
Proof.
  revert i. induction elems as [|x elems IH]; intros [|i]; simpl; try done.
  - by intros [Hx _]%andb_true_iff.
  - intros [_ Hrest]%andb_true_iff. by apply IH.
Qed.

Lemma well_keyed_indexed elems c k :
  forallb well_keyed elems = true -> well_keyed (indexed elems c k) = true.
Proof.
  intros H. unfold indexed. destruct (String.eqb k "length"); [done|].
  destruct (index_of_key k (List.length elems));
    [by apply well_keyed_nth|apply well_keyed_inherited].
Qed.

Lemma well_keyed_chars s : forallb well_keyed (chars s) = true.
Proof. by induction s. Qed.

Lemma well_keyed_own k props x :
  forallb (fun kx => well_keyed (snd kx)) props = true ->
  own k props = Some x -> well_keyed x = true.
Proof.
  induction props as [|[k' y] props IH]; [done|]. simpl.
  intros [Hy Hrest]%andb_true_iff.
  destruct (String.eqb k k'); [by intros [= <-]|by apply IH].
Qed.

Lemma well_keyed_get v k x :
  well_keyed v = true -> get_prop v k = Ok x -> well_keyed x = true.
Proof.
  destruct v as [| |b|n|s|elems|props|[[]|f]]; unfold get_prop;
    intros Hv Hget; try discriminate Hget.
  - injection Hget as <-. apply well_keyed_inherited.
  - injection Hget as <-. apply well_keyed_inherited.
  - injection Hget as <-. apply well_keyed_indexed, well_keyed_chars.
  - injection Hget as <-. by apply well_keyed_indexed.
  - simpl in Hv. apply andb_true_iff in Hv as [_ Hv].
    destruct (own k props) as [y|] eqn:Hy; injection Hget as <-;
      [by apply (well_keyed_own k props)|apply well_keyed_inherited].
  - destruct (String.eqb k "__proto__"); [by injection Hget as <-|].
    destruct (mem k object_prototype_names); by injection Hget as <-.
  - destruct (mem k absent_from_natives); [by injection Hget as <-|done].
  - destruct (mem k absent_from_natives); [by injection Hget as <-|done].
  - destruct (mem k absent_from_natives); [by injection Hget as <-|done].
  - destruct (mem k absent_from_natives); [by injection Hget as <-|done].
  - destruct (String.eqb k "name"); [by injection Hget as <-|].
    destruct (mem k absent_from_natives); [by injection Hget as <-|done].
Qed.

Lemma well_keyed_symbol item s :
  normalized_symbol item = Ok s -> well_keyed s = true.
Proof.
  unfold normalized_symbol. intros H.
  apply bind_Ok in H as (sym & _ & H). apply bind_Ok in H as (upper & Hup & H).
  injection H as <-. destruct (truthy upper); [|done].
  destruct (nullish sym); [by injection Hup as <-|].
  apply bind_Ok in Hup as (f & _ & Hcall). unfold call_method in Hcall.
  destruct f as [| | | | | | |[|fname]]; try discriminate Hcall.
  destruct (String.eqb fname "toUpperCase"); [|done].
  destruct sym; try discriminate Hcall. by injection Hcall as <-.
Qed.

Lemma well_keyed_address item chainCfg a :
  well_keyed item = true ->
  lookup_address item chainCfg = Ok a -> well_keyed a = true.
Proof.
  intros Hitem. unfold lookup_address. intros H.
  apply bind_Ok in H as (platforms & Hp & H).
  apply well_keyed_get in Hp; [|done].
  destruct (nullish platforms); [by injection H as <-|].
  apply bind_Ok in H as (slug & _ & H). apply bind_Ok in H as (key & _ & H).
  by apply (well_keyed_get platforms key).
Qed.

Lemma well_keyed_token item chainCfg a token :
  well_keyed item = true -> well_keyed chainCfg = true ->
  well_keyed a = true ->
  make_token item chainCfg a = Ok token -> well_keyed token = true.
Proof.
  intros Hitem Hcfg Ha Hmake.
  apply make_token_fields in Hmake as (c & n & s & d & Hc & Hd & Hn & Hs & ->).
  apply well_keyed_get in Hc, Hd, Hn; try done.
  apply well_keyed_symbol in Hs. cbn [well_keyed forallb snd].
  rewrite Hc, Ha, Hn, Hs, Hd. reflexivity.
Qed.

Lemma well_keyed_iterate data items :
  well_keyed data = true -> iterate data = Ok items ->
  forallb well_keyed items = true.
Proof.
  destruct data; simpl; intros Hdata Hitems; try discriminate Hitems;
    injection Hitems as <-; [apply well_keyed_chars|done].
Qed.

Lemma well_keyed_tokens data chainCfg tokens :
  well_keyed data = true -> well_keyed chainCfg = true ->
  transformCoinGeckoData data chainCfg = Ok tokens ->
  forallb well_keyed tokens = true.
Proof.
  intros Hdata Hcfg H. unfold transformCoinGeckoData in H.
  apply bind_Ok in H as (items & Hitems & Hloop).
  apply (well_keyed_iterate data) in Hitems; [|done].
  apply transform_loop_filter in Hloop.
  assert (Hkept : forallb well_keyed (List.filter (passes chainCfg) items) = true).
  { clear Hloop. induction items as [|x items IH]; [done|].
    simpl in Hitems. apply andb_true_iff in Hitems as [Hx Hrest]. simpl.
    destruct (passes chainCfg x); simpl; [rewrite Hx|]; by apply IH. }
  induction Hloop as [|item t kept toks (a & Ha & _ & Hmake) _ IH]; [done|].
  simpl in Hkept. apply andb_true_iff in Hkept as [Hitem Hkept]. simpl.
  rewrite IH by done. rewrite andb_true_r.
  apply (well_keyed_token item chainCfg a); try done.
  by apply (well_keyed_address item chainCfg).
Qed.

Lemma well_keyed_envelope name key timestamp tokens :
  well_keyed name = true -> forallb well_keyed tokens = true ->
  well_keyed (envelope name key timestamp tokens) = true.
Proof.
  intros Hname Htokens. unfold envelope. cbn [well_keyed forallb snd].
  rewrite Hname, Htokens. reflexivity.
Qed.

(** A run that ends with status 0 has written the envelope of the tokens
    that the transformer made from the fetched data. *)
Lemma main_exit_0 w o :
  main w = Some o -> exit_code o = 0 ->
  exists chainCfg name slug tokens text,
    get_prop CHAIN_CONFIG (chainKey w) = Ok chainCfg /\
    config_reads chainCfg = Ok (name, slug) /\
    transformCoinGeckoData (fetched w slug).1 chainCfg = Ok tokens /\
    JSON_stringify (envelope name (chainKey w) (date_second w) tokens) =
      Some text /\
    process o =
      {| stderr := (fetched w slug).2;
         stdout := [done_line (chainKey w)];
         disk := <[output_file_name (chainKey w) := text]> (files w) |}.
Proof.
  intros Hmain Hexit.
  destruct (get_prop CHAIN_CONFIG (chainKey w)) as [chainCfg|e|] eqn:Hcfg;
    [|unfold main in Hmain; by rewrite Hcfg in Hmain..].
  destruct (truthy chainCfg) eqn:Htrue.
  - rewrite (main_truthy w chainCfg Hcfg Htrue) in Hmain.
    destruct (config_reads chainCfg) as [[name slug]|e|] eqn:Hreads;
      [|by injection Hmain as <-|done].
    unfold outcome_past_guard in Hmain.
    destruct (transformCoinGeckoData _ chainCfg) as [tokens|e|] eqn:Htokens;
      [|by injection Hmain as <-|done].
    destruct (JSON_stringify _) as [text|] eqn:Htext; [|done].
    destruct (writable w _); injection Hmain as <-; [|done].
    by exists chainCfg, name, slug, tokens, text.
  - unfold main in Hmain. rewrite Hcfg, Htrue in Hmain. by injection Hmain as <-.
Qed.

Lemma CHAIN_CONFIG_well_keyed : well_keyed CHAIN_CONFIG = true.
Proof. reflexivity. Qed.








(** ** Runs on JSON replies stay inside the fragment *)

Lemma unclaimed_fields :
  unclaimed "platforms" /\ unclaimed "symbol" /\ unclaimed "name".
Proof. repeat split; by intros []. Qed.

Lemma json_nth elems i :
  forallb json elems = true -> plain (nth i elems VUndef).
Proof.
  revert i. induction elems as [|x elems IH]; intros [|i]; simpl;
    try (by right).
  - intros [Hx _]%andb_true_iff. by left.
  - intros [_ Hrest]%andb_true_iff. by apply IH.
Qed.

Lemma json_own k props x :
  forallb (fun kx => json (snd kx)) props = true ->
  own k props = Some x -> json x = true.
Proof.
  induction props as [|[k' y] props IH]; [done|]. simpl.
  intros [Hy Hrest]%andb_true_iff.
  destruct (String.eqb k k'); [by intros [= <-]|by apply IH].
Qed.

(** A read of an unclaimed key from JSON data: an exception on null, else a
    plain value. *)
Lemma get_prop_json v k :
  json v = true -> unclaimed k ->
  (exists e, get_prop v k = Throw e) \/
  (exists x, get_prop v k = Ok x /\ plain x).
Proof.
  intros Hv (Hinh & Hlen & Hnum).
  destruct v as [| |b|n|s|elems|props|b]; try discriminate Hv;
    unfold get_prop, indexed.
  - left. by eexists.
  - right. exists VUndef. by rewrite Hinh; split; [|right].
  - right. exists VUndef. by rewrite Hinh; split; [|right].
  - right. exists VUndef.
    rewrite Hlen, index_of_key_none, Hinh by done. by split; [|right].
  - right. exists VUndef.
    rewrite Hlen, index_of_key_none, Hinh by done. by split; [|right].
  - simpl in Hv. apply andb_true_iff in Hv as [_ Hv].
    destruct (own k props) as [x|] eqn:Hx; right; eexists; (split; [done|]).
    + left. by apply (json_own k props).
    + rewrite Hinh. by right.
Qed.

(** Any read from JSON data is inside the fragment. *)
Lemma get_prop_modelled v k : json v = true -> get_prop v k <> NotModelled.
Proof.
  destruct v as [| |b|n|s|elems|props|b]; try done. simpl.
  by destruct (own k props).
Qed.

Lemma normalized_symbol_modelled item :
  json item = true -> normalized_symbol item <> NotModelled.
Proof.
  intros Hitem. unfold normalized_symbol.
  destruct unclaimed_fields as (_ & Hsym & _).
  destruct (get_prop_json item "symbol" Hitem Hsym)
    as [[e ->]|(sym & -> & [Hj| ->])]; try done.
  simpl bind.
  destruct sym as [| |b|n|s|elems|props|b]; try discriminate Hj; try done.
  - unfold get_prop, indexed. simpl String.eqb.
    by rewrite index_of_key_none.
  - unfold get_prop, indexed. simpl String.eqb.
    by rewrite index_of_key_none.
  - simpl in Hj. apply andb_true_iff in Hj as [_ Hj]. simpl.
    destruct (own "toUpperCase" props) as [f|] eqn:Hf; [|done].
    apply (json_own _ _ _ Hj) in Hf.
    by destruct f.
Qed.

(** What the guard lets through reads like a configuration. *)
Lemma resolved_config_reads key chainCfg :
  get_prop CHAIN_CONFIG key = Ok chainCfg -> truthy chainCfg = true ->
  exists name slug chainId dec,
    config_reads chainCfg = Ok (name, slug) /\
    get_prop chainCfg "coingeckoPlatform" = Ok (match slug with
                                                | "undefined" => VUndef
                                                | _ => VStr slug
                                                end) /\
    get_prop chainCfg "chainId" = Ok chainId /\
    get_prop chainCfg "decimals" = Ok dec.
Proof.
  unfold CHAIN_CONFIG, get_prop at 1. cbn [own].
  destruct (String.eqb key "base"); [intros [= <-] _; by eexists _, _, _, _|].
  destruct (String.eqb key "bsc"); [intros [= <-] _; by eexists _, _, _, _|].
  destruct (String.eqb key "ethereum");
    [intros [= <-] _; by eexists _, _, _, _|].
  destruct (String.eqb key "polygon");
    [intros [= <-] _; by eexists _, _, _, _|].
  unfold inherited. destruct (String.eqb key "__proto__");
    [intros [= <-] _; by eexists _, _, _, _|].
  destruct (mem key (prototype_names CObject));
    [intros [= <-] _; by eexists _, _, _, _|].
  destruct (mem key object_prototype_names);
    [intros [= <-] _; by eexists _, _, _, _|].
  by intros [= <-].
Qed.

Lemma transform_loop_modelled items chainCfg slug chainId dec acc :
  forallb json items = true ->
  get_prop chainCfg "coingeckoPlatform" = Ok slug ->
  to_property_key slug <> NotModelled ->
  get_prop chainCfg "chainId" = Ok chainId ->
  get_prop chainCfg "decimals" = Ok dec ->
  transform_loop items chainCfg acc <> NotModelled.
Proof.
  intros Hitems Hslug Hkey Hid Hdec. revert acc Hitems.
  destruct unclaimed_fields as (Hplatforms & _ & Hname).
  induction items as [|item items IH]; intros acc Hitems; [done|].
  simpl in Hitems. apply andb_true_iff in Hitems as [Hitem Hitems].
  cbn [transform_loop]. unfold lookup_address.
  destruct (get_prop_json item "platforms" Hitem Hplatforms)
    as [[e ->]|(p & -> & Hp)]; [done|]. simpl bind.
  assert (Hskip : forall tokens,
            (if negb (truthy VUndef) then transform_loop items chainCfg tokens
             else let* token := make_token item chainCfg VUndef in
                  transform_loop items chainCfg (tokens ++ [token]))
            <> NotModelled) by (intros tokens; by apply IH).
  destruct Hp as [Hp| ->]; [|by apply Hskip].
  destruct (nullish p) eqn:Hnull; [by apply Hskip|].
  rewrite Hslug. simpl bind.
  destruct (to_property_key slug) as [key|e|]; [|done|done]. simpl bind.
  pose proof (get_prop_modelled p key Hp) as Hread.
  destruct (get_prop p key) as [a|e|]; [|done|done]. simpl bind.
  destruct (negb (truthy a)); [by apply IH|].
  unfold make_token. rewrite Hid, Hdec. simpl bind.
  destruct (get_prop_json item "name" Hitem Hname)
    as [[e ->]|(n & -> & _)]; [done|]. simpl bind.
  pose proof (normalized_symbol_modelled item Hitem) as Hsym.
  destruct (normalized_symbol item) as [s|e|]; [|done|done]. simpl bind.
  by apply IH.
Qed.

Lemma json_chars s : forallb json (chars s) = true.
Proof. by induction s. Qed.

(** With JSON replies, every run ends with an outcome. *)
Lemma main_defined w :
  (forall url data, http_get w url = Resolved data -> json data = true) ->
  exists o, main w = Some o.
Proof.
  intros Hdata.
  assert (exists chainCfg, get_prop CHAIN_CONFIG (chainKey w) = Ok chainCfg)
    as [chainCfg Hcfg]
    by (unfold get_prop, CHAIN_CONFIG; destruct (own _ _); by eexists).
  destruct (truthy chainCfg) eqn:Htrue;
    [|unfold main; rewrite Hcfg, Htrue; by eexists].
  rewrite (main_truthy w chainCfg Hcfg Htrue).
  destruct (resolved_config_reads _ _ Hcfg Htrue)
    as (name & slug & chainId & dec & -> & Hslug & Hid & Hdec).
  unfold outcome_past_guard.
  assert (Hjson : json (fetched w slug).1 = true).
  { unfold fetched.
    destruct (http_get w (coins_list_url slug)) as [data|message] eqn:Hget;
      [by apply (Hdata (coins_list_url slug))|done]. }
  assert (Hrun : transformCoinGeckoData (fetched w slug).1 chainCfg
                 <> NotModelled).
  { unfold transformCoinGeckoData.
    destruct (fetched w slug).1 as [| |b|n|s|elems|props|b];
      try discriminate Hjson; try done; simpl bind.
    - apply (transform_loop_modelled (chars s) chainCfg _ chainId dec []
               (json_chars s) Hslug); [|done..]. by repeat case_match.
    - apply (transform_loop_modelled elems chainCfg _ chainId dec []
               Hjson Hslug); [|done..]. by repeat case_match. }
  destruct (transformCoinGeckoData _ chainCfg) as [tokens|e|];
    [|by eexists|done].
  destruct (envelope_text name (chainKey w) (date_second w) tokens)
    as [text ->].
  destruct (writable w _); by eexists.
Qed.

(** ** What a run writes *)







Lemma made_tokens_copy_decimals chainCfg dec kept tokens :
  get_prop chainCfg "decimals" = Ok dec ->
  Forall2 (made_from chainCfg) kept tokens ->
  Forall (fun t => token_field "decimals" t = Some dec) tokens.
Proof.
  intros Hdec H.
  induction H as [|item t kept toks (a & _ & _ & Hmake) _ IH]; constructor;
    [|exact IH].
  apply make_token_fields in Hmake as (c & n & s & d & _ & Hd & _ & _ & ->).
  rewrite Hdec in Hd. by injection Hd as <-.
Qed.

(** C9: every entry of the configuration table sets decimals to 18, so with
    a supported key every token the transformer produces, whatever the
    upstream data, has decimals 18, and so has every token of the envelope
    that a run writes. *)
Theorem C9_decimals_always_18 key chainCfg :
  key ∈ supported_keys ->
  get_prop CHAIN_CONFIG key = Ok chainCfg ->
  get_prop chainCfg "decimals" = Ok (VNum 18) /\
  (forall geckoData tokens,
     transformCoinGeckoData geckoData chainCfg = Ok tokens ->
     Forall (fun t => token_field "decimals" t = Some (VNum 18)) tokens) /\
  (forall w o,
     chainKey w = key -> main w = Some o -> exit_code o = 0 ->
     exists name tokens text,
       JSON_stringify (envelope name key (date_second w) tokens) = Some text /\
       disk (process o) !! output_file_name key = Some text /\
       Forall (fun t => token_field "decimals" t = Some (VNum 18)) tokens).
Proof.
  intros Hkey Hcfg.
  destruct (supported_key_config key Hkey) as (cfg & Hget & _ & Hdec & _).
  rewrite Hget in Hcfg. injection Hcfg as <-.
  assert (Hd : get_prop (config_value cfg) "decimals" = Ok (VNum 18))
    by (simpl; by rewrite Hdec).
  assert (Hall : forall geckoData tokens,
            transformCoinGeckoData geckoData (config_value cfg) = Ok tokens ->
            Forall (fun t => token_field "decimals" t = Some (VNum 18)) tokens).
  { intros geckoData tokens Hrun. unfold transformCoinGeckoData in Hrun.
    apply bind_Ok in Hrun as (items & _ & Hloop).
    apply transform_loop_filter in Hloop.
    by apply (made_tokens_copy_decimals (config_value cfg) _ _ _ Hd Hloop). }
  split; [exact Hd|]. split; [exact Hall|].
  intros w o <- Hmain Hexit.
  destruct (main_exit_0 w o Hmain Hexit)
    as (chainCfg & name & slug & tokens & text
        & Hcfg & Hreads & Htokens & Htext & Hprocess).
  rewrite Hget in Hcfg. injection Hcfg as <-.
  exists name, tokens, text. split; [done|]. split.
  - rewrite Hprocess. simpl. apply lookup_insert_eq.
  - by apply (Hall (fetched w slug).1).
Qed.

Lemma C9_witness :
  "base" ∈ supported_keys /\
  get_prop (config_value base_config) "decimals" = Ok (VNum 18) /\
  (forall geckoData tokens,
     transformCoinGeckoData geckoData (config_value base_config) = Ok tokens ->
     Forall (fun t => token_field "decimals" t = Some (VNum 18)) tokens) /\
  (forall w o,
     chainKey w = "base" -> main w = Some o -> exit_code o = 0 ->
     exists name tokens text,
       JSON_stringify (envelope name "base" (date_second w) tokens) =
         Some text /\
       disk (process o) !! output_file_name "base" = Some text /\
       Forall (fun t => token_field "decimals" t = Some (VNum 18)) tokens).
Proof.
  assert (H : "base" ∈ supported_keys) by repeat constructor.
  split; [exact H|].
  exact (C9_decimals_always_18 "base" (config_value base_config) H eq_refl).
Defined.

(** ** Further properties: the guard and the command line *)

Lemma CHAIN_CONFIG_read key :
  exists chainCfg, get_prop CHAIN_CONFIG key = Ok chainCfg.
Proof. unfold get_prop, CHAIN_CONFIG. destruct (own _ _); by eexists. Qed.

(** What the guard tests is falsy exactly for the keys that are neither in
    the table nor inherited. *)
Lemma guard_falsy key chainCfg :
  get_prop CHAIN_CONFIG key = Ok chainCfg ->
  truthy chainCfg = false <->
  (key ∉ supported_keys) /\ mem key object_prototype_names = false.
Proof.
  intros Hcfg. destruct (decide (key ∈ supported_keys)) as [Hin|Hout].
  - destruct (supported_key_config key Hin) as (cfg & Hget & _).
    rewrite Hget in Hcfg. injection Hcfg as <-. split; [done|by intros [? _]].
  - unfold get_prop, CHAIN_CONFIG in Hcfg.
    rewrite own_unlisted in Hcfg by exact Hout. injection Hcfg as <-.
    destruct (mem key object_prototype_names) eqn:Hmem.
    + split; [|by intros [_ ?]]. unfold inherited. simpl prototype_names.
      rewrite Hmem. by destruct (String.eqb key "__proto__").
    + rewrite inherited_absent by done. by split.
Qed.

Lemma error_message_start e key : error_message e <> unsupported_line key.
Proof.
  intros H.
  apply (f_equal (fun s => match s with
                           | String c _ => Some c
                           | EmptyString => None
                           end)) in H.
  destruct e; discriminate H.
Qed.

(** X1: the guard of line 59 ends the run, with the error line, status 1
    and the disk untouched, exactly for the keys that are neither keys of
    the table nor property names inherited from Object.prototype. *)
Theorem guard_refuses_exactly w :
  main w = Some (refusal w) <->
  (chainKey w ∉ supported_keys) /\
  mem (chainKey w) object_prototype_names = false.
Proof.
  destruct (CHAIN_CONFIG_read (chainKey w)) as [chainCfg Hcfg].
  rewrite <- (guard_falsy _ _ Hcfg). split.
  - intros Hmain. destruct (truthy chainCfg) eqn:Htrue; [|done]. exfalso.
    rewrite (main_truthy w chainCfg Hcfg Htrue) in Hmain.
    destruct (config_reads chainCfg) as [[name slug]|e|]; [| |done].
    + unfold outcome_past_guard, fetched in Hmain.
      destruct (http_get w (coins_list_url slug)) as [data|message];
        simpl fst in Hmain; simpl snd in Hmain;
        destruct (transformCoinGeckoData _ chainCfg) as [tokens|e|];
        try discriminate Hmain;
        try (destruct (JSON_stringify _); [|discriminate Hmain];
             destruct (writable w _));
        injection Hmain as Hstderr; try discriminate;
        simpl in Hstderr; by apply error_message_start in Hstderr.
    + injection Hmain as Hstderr. by apply error_message_start in Hstderr.
  - intros Htrue. unfold main. by rewrite Hcfg, Htrue.
Qed.

(** X2: without an argument, or with the empty string as argument, the run
    is the run for [base]. *)
Theorem default_key_is_base w :
  argv2 w = None \/ argv2 w = Some "" ->
  main w = main (with_argument (Some "base") w).
Proof.
  destruct w as [arg get t1 t2 fs can]. simpl. by intros [->| ->].
Qed.

Lemma default_key_is_base_witness :
  main offline_world = main (with_argument (Some "base") offline_world).
Proof. apply default_key_is_base. by left. Defined.

(** ** Further properties: what a run leaves behind *)

(** The two ways a run ends. *)
Lemma main_shape w o :
  main w = Some o ->
  (exit_code o = 0 /\
   writable w (output_file_name (chainKey w)) = true /\
   stdout (process o) = [done_line (chainKey w)] /\
   exists text,
     disk (process o) =
     <[output_file_name (chainKey w) := text]> (files w)) \/
  (exit_code o = 1 /\
   stdout (process o) = [] /\
   disk (process o) = files w).
Proof.
  intros Hmain. destruct (CHAIN_CONFIG_read (chainKey w)) as [chainCfg Hcfg].
  destruct (truthy chainCfg) eqn:Htrue.
  - rewrite (main_truthy w chainCfg Hcfg Htrue) in Hmain.
    destruct (config_reads chainCfg) as [[name slug]|e|];
      [|injection Hmain as <-; by right|done].
    unfold outcome_past_guard in Hmain.
    destruct (transformCoinGeckoData _ chainCfg) as [tokens|e|];
      [|injection Hmain as <-; by right|done].
    destruct (JSON_stringify _) as [text|]; [|done].
    destruct (writable w _) eqn:Hwrite; injection Hmain as <-;
      [left|by right].
    repeat split; try done. by exists text.
  - unfold main in Hmain. rewrite Hcfg, Htrue in Hmain.
    injection Hmain as <-. by right.
Qed.

(** X3: a run changes no file but [<key>-tokenlist.json]. *)
Theorem only_the_output_file_changes w o file :
  main w = Some o ->
  file <> output_file_name (chainKey w) ->
  disk (process o) !! file = files w !! file.
Proof.
  intros Hmain Hfile.
  destruct (main_shape w o Hmain)
    as [(_ & _ & _ & text & ->)|(_ & _ & ->)]; [|done].
  by apply lookup_insert_ne.
Qed.

Lemma only_the_output_file_changes_witness :
  exists o,
    main crowded_world = Some o /\
    disk (process o) !! "notes.txt" = files crowded_world !! "notes.txt".
Proof.
  eexists. split; [vm_compute; reflexivity|].
  apply (only_the_output_file_changes crowded_world);
    [vm_compute; reflexivity|discriminate].
Defined.

(** X4: a run ends with status 0 or 1.  With status 0 the output file has
    been written and the standard output is the one line that reports it;
    with status 1 nothing is printed on the standard output and the disk is
    as it was. *)
Theorem run_ends_written_or_untouched w o :
  main w = Some o ->
  (exit_code o = 0 /\
   stdout (process o) = [done_line (chainKey w)] /\
   exists text,
     disk (process o) =
     <[output_file_name (chainKey w) := text]> (files w)) \/
  (exit_code o = 1 /\
   stdout (process o) = [] /\
   disk (process o) = files w).
Proof.
  intros Hmain.
  destruct (main_shape w o Hmain)
    as [(H0 & _ & Hout & Hdisk)|H1]; [left|right]; done.
Qed.

Lemma run_ends_written_or_untouched_witness :
  exists o,
    main crowded_world = Some o /\
    ((exit_code o = 0 /\
      stdout (process o) = [done_line (chainKey crowded_world)] /\
      exists text,
        disk (process o) =
        <[output_file_name (chainKey crowded_world) := text]>
          (files crowded_world)) \/
     (exit_code o = 1 /\
      stdout (process o) = [] /\
      disk (process o) = files crowded_world)).
Proof.
  eexists. split; [vm_compute; reflexivity|].
  apply (run_ends_written_or_untouched crowded_world).
  vm_compute. reflexivity.
Defined.

(** X5: when the output file cannot be written, the run ends with status 1,
    does not report a built list, and leaves the disk as it was, whatever
    was fetched. *)
Theorem unwritable_file_fails_the_run w o :
  writable w (output_file_name (chainKey w)) = false ->
  main w = Some o ->
  exit_code o = 1 /\ stdout (process o) = [] /\ disk (process o) = files w.
Proof.
  intros Hwrite Hmain.
  destruct (main_shape w o Hmain) as [(_ & Hw & _)|H1]; [|done].
  by rewrite Hwrite in Hw.
Qed.

Lemma unwritable_file_fails_the_run_witness :
  exists o,
    main readonly_world = Some o /\
    exit_code o = 1 /\ stdout (process o) = [] /\
    disk (process o) = files readonly_world.
Proof.
  eexists. split; [vm_compute; reflexivity|].
  apply (unwritable_file_fails_the_run readonly_world);
    [reflexivity|vm_compute; reflexivity].
Defined.

(** X6: a reply that is not iterable (an object, null, a number, a boolean)
    is not caught by the fetcher: the transformer throws a TypeError, and the
    run ends with status 1, without the line that reports a built list and
    with the disk as it was. *)
Theorem non_iterable_reply_fails_the_run w cfg data :
  get_prop CHAIN_CONFIG (chainKey w) = Ok (config_value cfg) ->
  http_get w (coins_list_url (platformSlug cfg)) = Resolved data ->
  not_iterable data = true ->
  exists msg o,
    transformCoinGeckoData data (config_value cfg) = Throw (TypeError msg) /\
    main w = Some o /\
    exit_code o = 1 /\
    stdout (process o) = [] /\
    disk (process o) = files w.
Proof.
  intros Hcfg Hget Hdata. exists "geckoData is not iterable".
  assert (Hrun : transformCoinGeckoData data (config_value cfg) =
                 Throw (TypeError "geckoData is not iterable"))
    by by destruct data.
  eexists. split; [exact Hrun|].
  rewrite (main_past_guard w (config_value cfg) (VStr (displayName cfg))
             (VStr (platformSlug cfg)) (platformSlug cfg)) by done.
  unfold outcome_past_guard, fetched. rewrite Hget. simpl fst. simpl snd.
  rewrite Hrun. by repeat split.
Qed.

Lemma non_iterable_reply_fails_the_run_witness :
  exists msg o,
    transformCoinGeckoData (VObj [("error", VStr "rate limited")])
      (config_value {| networkId := 56;
                       platformSlug := "binance-smart-chain";
                       displayName := "BSC Token List";
                       decimals := 18 |}) = Throw (TypeError msg) /\
    main object_reply_world = Some o /\
    exit_code o = 1 /\
    stdout (process o) = [] /\
    disk (process o) = files object_reply_world.
Proof.
  exact (non_iterable_reply_fails_the_run object_reply_world
           {| networkId := 56; platformSlug := "binance-smart-chain";
              displayName := "BSC Token List"; decimals := 18 |}
           (VObj [("error", VStr "rate limited")])
           eq_refl eq_refl eq_refl).
Defined.

(** ** Further properties: the transformer *)

(** X7: a null element of the upstream array aborts the transformation with
    a TypeError, whatever tokens the elements before it gave and whatever
    follows it. *)
Theorem null_item_aborts before after chainCfg tokens :
  transformCoinGeckoData (VArr before) chainCfg = Ok tokens ->
  exists msg,
    transformCoinGeckoData (VArr (before ++ VNull :: after)) chainCfg =
    Throw (TypeError msg).
Proof.
  unfold transformCoinGeckoData. simpl bind. intros Hbefore.
  rewrite transform_loop_app, Hbefore. by eexists.
Qed.

Lemma null_item_aborts_witness :
  exists msg,
    transformCoinGeckoData
      (VArr (map coin_value sample_records ++ VNull :: []))
      (config_value base_config) = Throw (TypeError msg).
Proof.
  exact (null_item_aborts (map coin_value sample_records) []
           (config_value base_config) sample_tokens eq_refl).
Defined.

(** X8: a record that carries an address and whose symbol is a number has
    no [toUpperCase]: the transformation aborts with a TypeError instead of
    falling back to the empty symbol. *)
Theorem numeric_symbol_aborts before after cfg props n tokens address :
  transformCoinGeckoData (VArr before) (config_value cfg) = Ok tokens ->
  own "symbol" props = Some (VNum n) ->
  lookup_address (VObj props) (config_value cfg) = Ok address ->
  truthy address = true ->
  exists msg,
    transformCoinGeckoData (VArr (before ++ VObj props :: after))
                           (config_value cfg) = Throw (TypeError msg).
Proof.
  unfold transformCoinGeckoData. simpl bind.
  intros Hbefore Hsymbol Haddress Htrue.
  rewrite transform_loop_app, Hbefore. simpl bind.
  cbn [transform_loop]. rewrite Haddress. simpl bind. rewrite Htrue.
  simpl negb. cbv iota. unfold make_token, normalized_symbol.
  cbn [get_prop config_value own String.eqb Ascii.eqb Bool.eqb]. simpl bind.
  rewrite Hsymbol. simpl bind.
  destruct (own "name" props); by eexists.
Qed.

Lemma numeric_symbol_aborts_witness :
  exists msg,
    transformCoinGeckoData
      (VArr (map coin_value sample_records ++ numeric_symbol_item :: []))
      (config_value base_config) = Throw (TypeError msg).
Proof.
  exact (numeric_symbol_aborts (map coin_value sample_records) [] base_config
           [ ("id", VStr "odd"); ("symbol", VNum 7); ("name", VStr "Odd");
             ("platforms", VObj [("base", VStr "0x777")]) ]
           7 sample_tokens (VStr "0x777") eq_refl eq_refl eq_refl eq_refl).
Defined.

Lemma character_is_skipped c chainCfg :
  lookup_address (VStr (String c EmptyString)) chainCfg = Ok VUndef.
Proof. reflexivity. Qed.

(** X9: a reply that is a text rather than an array is iterated character
    by character; no character has platforms, so the result is the empty
    list of tokens and not an error. *)
Theorem text_reply_gives_no_tokens s chainCfg :
  transformCoinGeckoData (VStr s) chainCfg = Ok [].
Proof.
  unfold transformCoinGeckoData. simpl bind.
  induction s as [|c s IH]; [done|].
  cbn [chars transform_loop]. by rewrite character_is_skipped.
Qed.

Lemma filter_length_bound {A} (f : A -> bool) l :
  (List.length (List.filter f l) <= List.length l)%nat.
Proof.
  induction l as [|x l IH]; simpl; [done|]. destruct (f x); simpl; lia.
Qed.

(** X10: the transformer returns one token for each element that passes the
    address filter, so never more tokens than the reply has elements. *)
Theorem tokens_count items chainCfg tokens :
  transformCoinGeckoData (VArr items) chainCfg = Ok tokens ->
  List.length tokens = List.length (List.filter (passes chainCfg) items) /\
  (List.length tokens <= List.length items)%nat.
Proof.
  unfold transformCoinGeckoData. simpl bind. intros Hloop.
  apply transform_loop_filter, Forall2_length in Hloop.
  rewrite <- Hloop. split; [done|apply filter_length_bound].
Qed.

Lemma tokens_count_witness :
  List.length sample_tokens =
    List.length (List.filter (passes (config_value base_config))
                   (map coin_value sample_records)) /\
  (List.length sample_tokens <= List.length (map coin_value sample_records))%nat.
Proof.
  exact (tokens_count (map coin_value sample_records)
           (config_value base_config) sample_tokens eq_refl).
Defined.

(** X11: the transformer works element by element: the tokens of two
    replies put one after the other are the tokens of the first followed by
    the tokens of the second. *)
Theorem transform_of_concatenation items1 items2 chainCfg tokens1 tokens2 :
  transformCoinGeckoData (VArr items1) chainCfg = Ok tokens1 ->
  transformCoinGeckoData (VArr items2) chainCfg = Ok tokens2 ->
  transformCoinGeckoData (VArr (items1 ++ items2)) chainCfg =
  Ok (tokens1 ++ tokens2).
Proof.
  unfold transformCoinGeckoData. simpl bind. intros H1 H2.
  by rewrite transform_loop_app, H1; simpl bind;
     rewrite transform_loop_acc, H2.
Qed.

Lemma transform_of_concatenation_witness :
  transformCoinGeckoData
    (VArr (map coin_value sample_records ++ map coin_value sample_records))
    (config_value base_config) =
  Ok (sample_tokens ++ sample_tokens).
Proof.
  exact (transform_of_concatenation (map coin_value sample_records)
           (map coin_value sample_records) (config_value base_config)
           sample_tokens sample_tokens eq_refl eq_refl).
Defined.

Lemma upper_ascii_idempotent c : upper_ascii (upper_ascii c) = upper_ascii c.
Proof. destruct c as [[] [] [] [] [] [] [] []]; reflexivity. Qed.

Lemma toUpperCase_idempotent s : toUpperCase (toUpperCase s) = toUpperCase s.
Proof.
  induction s as [|c s IH]; [done|]. simpl.
  by rewrite upper_ascii_idempotent, IH.
Qed.

(** The symbol expression of line 115, when it has a value, has a string
    that upper-casing leaves as it is. *)
Lemma normalized_symbol_upper item v :
  normalized_symbol item = Ok v ->
  exists s, v = VStr s /\ toUpperCase s = s.
Proof.
  unfold normalized_symbol. intros H.
  apply bind_Ok in H as (sym & _ & H). apply bind_Ok in H as (upper & Hup & H).
  injection H as <-.
  assert (Hupper : upper = VUndef \/
                   exists s, upper = VStr s /\ toUpperCase s = s).
  { destruct (nullish sym); [left; by injection Hup as <-|].
    apply bind_Ok in Hup as (f & _ & Hcall). unfold call_method in Hcall.
    destruct f as [| | | | | | |[|fname]]; try discriminate Hcall.
    destruct (String.eqb fname "toUpperCase"); [|done].
    destruct sym; try discriminate Hcall. injection Hcall as <-.
    right. eexists. split; [done|apply toUpperCase_idempotent]. }
  destruct Hupper as [->|(s & -> & Hs)]; [by exists ""|].
  destruct (truthy (VStr s)); [by exists s|by exists ""].
Qed.

Lemma made_token_shape chainCfg chainId dec item token :
  get_prop chainCfg "chainId" = Ok chainId ->
  get_prop chainCfg "decimals" = Ok dec ->
  made_from chainCfg item token ->
  token_shape chainId dec token.
Proof.
  intros Hid Hdec (a & _ & Ha & Hmake).
  apply make_token_fields in Hmake as (c & n & s & d & Hc & Hd & _ & Hs & ->).
  rewrite Hid in Hc. injection Hc as <-. rewrite Hdec in Hd. injection Hd as <-.
  apply normalized_symbol_upper in Hs as (text & -> & _).
  by exists a, n, text.
Qed.

(** X12: every token is an object with the six properties chainId, address,
    name, symbol, decimals and logoURI, in this order; the logo is the empty
    string, the symbol a string, the address truthy, and chainId and
    decimals are the same in all tokens: those read from the
    configuration. *)
Theorem tokens_share_shape geckoData chainCfg tokens :
  transformCoinGeckoData geckoData chainCfg = Ok tokens ->
  exists chainId dec,
    Forall (token_shape chainId dec) tokens /\
    (tokens <> [] ->
     get_prop chainCfg "chainId" = Ok chainId /\
     get_prop chainCfg "decimals" = Ok dec).
Proof.
  unfold transformCoinGeckoData. intros H.
  apply bind_Ok in H as (items & _ & Hloop).
  apply transform_loop_filter in Hloop.
  destruct Hloop as [|item token kept tokens Hmade Hrest].
  - exists VUndef, VUndef. by split.
  - pose proof Hmade as (a & _ & _ & Hmake).
    apply make_token_fields in Hmake as (c & n & s & d & Hc & Hd & _).
    exists c, d. split; [|done].
    constructor; [by apply (made_token_shape chainCfg c d item)|].
    induction Hrest as [|item' token' kept tokens Hmade' _ IH]; constructor;
      [by apply (made_token_shape chainCfg c d item')|exact IH].
Qed.

Lemma tokens_share_shape_witness :
  exists chainId dec,
    Forall (token_shape chainId dec) sample_tokens /\
    (sample_tokens <> [] ->
     get_prop (config_value base_config) "chainId" = Ok chainId /\
     get_prop (config_value base_config) "decimals" = Ok dec).
Proof.
  exact (tokens_share_shape (VArr (map coin_value sample_records))
           (config_value base_config) sample_tokens eq_refl).
Defined.

Lemma unchanged_has_no_lower_case s :
  toUpperCase s = s -> no_lower_case s = true.
Proof.
  induction s as [|c s IH]; [done|]. simpl. intros [= Hc Hs].
  rewrite (IH Hs), andb_true_r. unfold upper_ascii in Hc. unfold lower_case.
  destruct ((97 <=? nat_of_ascii c)%nat && (nat_of_ascii c <=? 122)%nat)
    eqn:Hlow; [|done].
  apply (f_equal nat_of_ascii) in Hc.
  apply andb_true_iff in Hlow as [Hge Hle].
  apply Nat.leb_le in Hge, Hle.
  rewrite nat_ascii_embedding in Hc by lia. lia.
Qed.

(** X13: when the strings of the upstream data are ASCII text, the symbol of
    every token is a string without any of the letters a-z. *)
Theorem symbols_are_upper_case geckoData chainCfg tokens :
  ascii_text geckoData = true ->
  transformCoinGeckoData geckoData chainCfg = Ok tokens ->
  Forall (fun t => exists s, token_field "symbol" t = Some (VStr s) /\
                             no_lower_case s = true) tokens.
Proof.
  unfold transformCoinGeckoData. intros _ H.
  apply bind_Ok in H as (items & _ & Hloop).
  apply transform_loop_filter in Hloop.
  induction Hloop as [|item t kept toks (a & _ & _ & Hmake) _ IH]; constructor;
    [|exact IH].
  apply make_token_fields in Hmake as (c & n & s & d & _ & _ & _ & Hs & ->).
  apply normalized_symbol_upper in Hs as (text & -> & Htext).
  exists text. split; [reflexivity|]. by apply unchanged_has_no_lower_case.
Qed.

Lemma symbols_are_upper_case_witness :
  Forall (fun t => exists s, token_field "symbol" t = Some (VStr s) /\
                             no_lower_case s = true) sample_tokens.
Proof.
  exact (symbols_are_upper_case (VArr (map coin_value sample_records))
           (config_value base_config) sample_tokens eq_refl eq_refl).
Defined.

(** ** Further properties: the envelope and the file *)

(** The file of a run that ends with status 0 parses to what JSON keeps of
    the envelope. *)
Lemma written_file_image w o :
  (forall url data, http_get w url = Resolved data -> well_keyed data = true) ->
  main w = Some o ->
  exit_code o = 0 ->
  exists name tokens text parsed,
    disk (process o) !! output_file_name (chainKey w) = Some text /\
    JSON_parse text = Ok parsed /\
    json_image (envelope name (chainKey w) (date_second w) tokens) =
      Some parsed.
Proof.
  intros Hdata Hmain Hexit.
  destruct (main_exit_0 w o Hmain Hexit)
    as (chainCfg & name & slug & tokens & text
        & Hcfg & Hreads & Htokens & Htext & Hprocess).
  assert (Hwcfg : well_keyed chainCfg = true)
    by exact (well_keyed_get _ _ _ CHAIN_CONFIG_well_keyed Hcfg).
  assert (Hwname : well_keyed name = true).
  { unfold config_reads in Hreads.
    apply bind_Ok in Hreads as (name' & Hname & Hreads).
    apply bind_Ok in Hreads as (platform & _ & Hreads).
    apply bind_Ok in Hreads as (slug' & _ & Hreads).
    injection Hreads as <- <-. by apply (well_keyed_get chainCfg "name"). }
  assert (Hwdata : well_keyed (fetched w slug).1 = true).
  { unfold fetched.
    destruct (http_get w (coins_list_url slug)) as [data|message] eqn:Hget;
      [by apply (Hdata (coins_list_url slug))|done]. }
  pose proof (well_keyed_tokens _ _ _ Hwdata Hwcfg Htokens) as Hwtokens.
  pose proof (well_keyed_envelope name (chainKey w) (date_second w) tokens
                Hwname Hwtokens) as Hwenv.
  destruct (parse_stringify _ _ Hwenv Htext) as (parsed & Himage & Hparse).
  exists name, tokens, text, parsed. repeat split; try done.
  rewrite Hprocess. simpl. apply lookup_insert_eq.
Qed.

(** X15: the file of a run that ends with status 0 is a JSON text; read
    back, its logo is the placeholder, its keywords are the key and
    [tokenlist], its version is 1.0.0, and its timestamp is the reading of
    the clock taken just before the write (line 140), not the one taken when
    the envelope was created (line 70). *)
Theorem written_file_reads_back w o :
  (forall url data, http_get w url = Resolved data -> well_keyed data = true) ->
  main w = Some o ->
  exit_code o = 0 ->
  exists text parsed,
    disk (process o) !! output_file_name (chainKey w) = Some text /\
    JSON_parse text = Ok parsed /\
    get_prop parsed "logoURI" = Ok (VStr "https://example.com/logo.png") /\
    get_prop parsed "keywords" =
      Ok (VArr [VStr (chainKey w); VStr "tokenlist"]) /\
    get_prop parsed "timestamp" = Ok (VStr (date_second w)) /\
    get_prop parsed "version" =
      Ok (VObj [("major", VNum 1); ("minor", VNum 0); ("patch", VNum 0)]).
Proof.
  intros Hdata Hmain Hexit.
  destruct (written_file_image w o Hdata Hmain Hexit)
    as (name & tokens & text & parsed & Hfile & Hparse & Himage).
  exists text, parsed. split; [done|]. split; [done|].
  unfold envelope in Himage. cbn [json_image] in Himage. csimpl in Himage.
  injection Himage as <-. by destruct (json_image name).
Qed.

Lemma written_file_reads_back_witness :
  exists o,
    main crowded_world = Some o /\
    exists text parsed,
      disk (process o) !! output_file_name (chainKey crowded_world) =
        Some text /\
      JSON_parse text = Ok parsed /\
      get_prop parsed "logoURI" = Ok (VStr "https://example.com/logo.png") /\
      get_prop parsed "keywords" =
        Ok (VArr [VStr (chainKey crowded_world); VStr "tokenlist"]) /\
      get_prop parsed "timestamp" = Ok (VStr (date_second crowded_world)) /\
      get_prop parsed "version" =
        Ok (VObj [("major", VNum 1); ("minor", VNum 0); ("patch", VNum 0)]).
Proof.
  eexists. split; [vm_compute; reflexivity|].
  apply (written_file_reads_back crowded_world).
  - intros url data [= <-]. reflexivity.
  - vm_compute. reflexivity.
  - reflexivity.
Defined.

(** ** Further properties: the request *)

(** X16: a failed request shows on the error stream only: the run ends with
    the same status, the same standard output and the same disk as the run
    in which the service answers with the empty array, and what it adds to
    the error stream is the one line that reports the failure. *)
Theorem failed_request_looks_like_empty_reply w message o :
  main (with_reply (Rejected message) w) = Some o ->
  exists o',
    main (with_reply (Resolved (VArr [])) w) = Some o' /\
    exit_code o = exit_code o' /\
    stdout (process o) = stdout (process o') /\
    disk (process o) = disk (process o') /\
    (stderr (process o) = stderr (process o') \/
     stderr (process o) =
       fetch_failure_line message :: stderr (process o')).
Proof.
  set (w1 := with_reply (Rejected message) w).
  set (w2 := with_reply (Resolved (VArr [])) w).
  intros Hmain. destruct (CHAIN_CONFIG_read (chainKey w)) as [chainCfg Hcfg].
  destruct (truthy chainCfg) eqn:Htrue.
  - rewrite (main_truthy w1 chainCfg Hcfg Htrue) in Hmain.
    rewrite (main_truthy w2 chainCfg Hcfg Htrue).
    destruct (config_reads chainCfg) as [[name slug]|e|]; [| |done].
    + unfold outcome_past_guard, fetched in *.
      change (http_get w1 _) with (Rejected message) in Hmain.
      change (http_get w2 _) with (Resolved (VArr [])).
      cbn [fst snd] in *.
      change (transformCoinGeckoData (VArr []) chainCfg)
        with (Ok [] : result (list value)) in *.
      cbv iota in *.
      change (chainKey w1) with (chainKey w) in Hmain.
      change (chainKey w2) with (chainKey w).
      change (date_second w1) with (date_second w) in Hmain.
      change (date_second w2) with (date_second w).
      change (writable w1) with (writable w) in Hmain.
      change (writable w2) with (writable w).
      change (files w1) with (files w) in Hmain.
      change (files w2) with (files w).
      destruct (JSON_stringify _) as [text|]; [|done].
      destruct (writable w _); injection Hmain as <-; eexists;
        (split; [reflexivity|]); simpl; repeat split; by right.
    + injection Hmain as <-. eexists. split; [reflexivity|].
      simpl. repeat split. by left.
  - unfold main in *.
    change (chainKey w1) with (chainKey w) in Hmain.
    change (chainKey w2) with (chainKey w).
    rewrite Hcfg, Htrue in *. simpl in *. injection Hmain as <-.
    eexists. split; [reflexivity|]. simpl. repeat split. by left.
Qed.

Lemma failed_request_looks_like_empty_reply_witness :
  exists o,
    main (with_reply (Rejected "timeout") crowded_world) = Some o /\
    exists o',
      main (with_reply (Resolved (VArr [])) crowded_world) = Some o' /\
      exit_code o = exit_code o' /\
      stdout (process o) = stdout (process o') /\
      disk (process o) = disk (process o') /\
      (stderr (process o) = stderr (process o') \/
       stderr (process o) =
         fetch_failure_line "timeout" :: stderr (process o')).
Proof.
  eexists. split; [vm_compute; reflexivity|].
  apply (failed_request_looks_like_empty_reply crowded_world "timeout").
  vm_compute. reflexivity.
Defined.

(** X17: a run that ends with status 0 has printed nothing on the error
    stream when the request was answered, and the one line that reports the
    failure when it was not. *)
Theorem error_stream_of_a_good_run w o :
  main w = Some o ->
  exit_code o = 0 ->
  exists chainCfg name slug,
    get_prop CHAIN_CONFIG (chainKey w) = Ok chainCfg /\
    config_reads chainCfg = Ok (name, slug) /\
    match http_get w (coins_list_url slug) with
    | Resolved _ => stderr (process o) = []
    | Rejected message => stderr (process o) = [fetch_failure_line message]
    end.
Proof.
  intros Hmain Hexit.
  destruct (main_exit_0 w o Hmain Hexit)
    as (chainCfg & name & slug & tokens & text
        & Hcfg & Hreads & _ & _ & ->).
  exists chainCfg, name, slug. repeat split; try done.
  unfold fetched. by destruct (http_get w _).
Qed.

Lemma error_stream_of_a_good_run_witness :
  exists o,
    main (with_reply (Rejected "timeout") crowded_world) = Some o /\
    exists chainCfg name slug,
      get_prop CHAIN_CONFIG
        (chainKey (with_reply (Rejected "timeout") crowded_world)) =
        Ok chainCfg /\
      config_reads chainCfg = Ok (name, slug) /\
      match http_get (with_reply (Rejected "timeout") crowded_world)
              (coins_list_url slug) with
      | Resolved _ => stderr (process o) = []
      | Rejected message => stderr (process o) = [fetch_failure_line message]
      end.
Proof.
  eexists. split; [vm_compute; reflexivity|].
  apply (error_stream_of_a_good_run
           (with_reply (Rejected "timeout") crowded_world));
    vm_compute; reflexivity.
Defined.

(** ** Further properties: the files of the other networks *)

Lemma length_append s t :
  String.length (s +:+ t) = (String.length s + String.length t)%nat.
Proof.
  induction s as [|c s IH]; [done|]. rewrite append_cons. simpl. by rewrite IH.
Qed.

Lemma append_cancel_r t s1 s2 : s1 +:+ t = s2 +:+ t -> s1 = s2.
Proof.
  revert s2. induction s1 as [|c1 s1 IH]; intros [|c2 s2] H.
  - done.
  - apply (f_equal String.length) in H. rewrite !length_append in H.
    simpl in H. lia.
  - apply (f_equal String.length) in H. rewrite !length_append in H.
    simpl in H. lia.
  - rewrite !append_cons in H. injection H as -> H. by rewrite (IH s2 H).
Qed.

(** X18: the name of the output file determines the key, so a run for one
    key leaves the token list of every other key as it was. *)
Theorem other_lists_are_kept w o key :
  main w = Some o ->
  key <> chainKey w ->
  output_file_name key <> output_file_name (chainKey w) /\
  disk (process o) !! output_file_name key =
    files w !! output_file_name key.
Proof.
  intros Hmain Hkey.
  assert (Hname : output_file_name key <> output_file_name (chainKey w)).
  { intros H. by apply append_cancel_r in H. }
  split; [exact Hname|].
  destruct (main_shape w o Hmain)
    as [(_ & _ & _ & text & ->)|(_ & _ & ->)]; [|done].
  by apply lookup_insert_ne.
Qed.

Lemma other_lists_are_kept_witness :
  exists o,
    main (with_argument (Some "base") crowded_world) = Some o /\
    output_file_name "ethereum" <>
      output_file_name (chainKey (with_argument (Some "base") crowded_world)) /\
    disk (process o) !! output_file_name "ethereum" =
      files (with_argument (Some "base") crowded_world)
        !! output_file_name "ethereum".
Proof.
  eexists. split; [vm_compute; reflexivity|].
  apply (other_lists_are_kept (with_argument (Some "base") crowded_world));
    [vm_compute; reflexivity|discriminate].
Defined.

(** ** Further properties: running again *)

(** X19: the file is overwritten, not extended: a second run on the disk
    that a first run left, with the same argument, replies and clock
    readings, ends as the first did and leaves the same disk. *)
Theorem second_run_changes_nothing w o :
  main w = Some o ->
  main (with_files (disk (process o)) w) = Some o.
Proof.
  intros Hmain. set (w' := with_files (disk (process o)) w).
  destruct (CHAIN_CONFIG_read (chainKey w)) as [chainCfg Hcfg].
  destruct (truthy chainCfg) eqn:Htrue.
  - rewrite (main_truthy w chainCfg Hcfg Htrue) in Hmain.
    rewrite (main_truthy w' chainCfg Hcfg Htrue).
    destruct (config_reads chainCfg) as [[name slug]|e|]; [| |done].
    + unfold outcome_past_guard, fetched in *.
      change (http_get w') with (http_get w).
      change (chainKey w') with (chainKey w).
      change (date_second w') with (date_second w).
      change (writable w') with (writable w).
      change (files w') with (disk (process o)).
      destruct (transformCoinGeckoData _ chainCfg) as [tokens|e|];
        [|by injection Hmain as <-|done].
      destruct (JSON_stringify _) as [text|]; [|done].
      destruct (writable w _); injection Hmain as <-; [|done].
      simpl. by rewrite insert_insert_eq.
    + change (files w') with (disk (process o)). by injection Hmain as <-.
  - unfold main in *. change (chainKey w') with (chainKey w).
    rewrite Hcfg, Htrue in *. simpl in *.
    change (files w') with (disk (process o)). by injection Hmain as <-.
Qed.

Lemma second_run_changes_nothing_witness :
  exists o,
    main crowded_world = Some o /\
    main (with_files (disk (process o)) crowded_world) = Some o.
Proof.
  eexists. split; [vm_compute; reflexivity|].
  apply (second_run_changes_nothing crowded_world).
  vm_compute. reflexivity.
Defined.
